(** * Dify pipeline adapter (dify_pipeline_local.py): model and properties

    A shallow embedding of [DifySchema.get_schema], [Pipeline.__init__],
    [Pipeline.create_api_url] and [Pipeline.pipe].

    Conventions.
    - A Python [str] is a Rocq [string] holding its UTF-8 bytes; the
      substring operations used by the code ([startswith], [replace] with
      ASCII patterns) act the same on bytes and on code points.  A Python
      [bytes] is a [string] as well, and [bytes.decode("utf-8")] is the
      strict well-formedness check [decode_utf8].
    - Python dictionaries that the code mutates live in a heap and are
      referred to by location, so that aliasing between a dictionary and a
      shallow copy of it is visible.  Values that are only read (the caller
      context, parsed JSON documents) are immutable [json] trees.
    - A raised exception is a value of [exn].  [Unmodelled] marks Python
      behaviour outside this model: [dict.update] with a non-empty list of
      pairs, assignment into a decoded JSON document, a dangling or cyclic
      reference.  The JSON decoder never returns it ([loads_total]).
    - [pipe] is a generator; the model describes a consumer that runs it to
      the end: the request sent (if any), the fragments yielded in order,
      and a normal end or the exception that reaches the caller. *)

From Stdlib Require Import ZArith NArith String Ascii List Bool Lia DecimalString.
From stdpp Require Import base option strings gmap list.

Local Open Scope string_scope.
Local Open Scope Z_scope.

(** ** Exceptions and results *)

Inductive exn : Type :=
| KeyError (key : string)
| TypeError
| ValueError (msg : string)
| JSONDecodeError
| UnicodeDecodeError
| ValidationError
| RequestException (msg : string)
| Unmodelled.

Inductive result (A : Type) : Type :=
| Ok (a : A)
| Raise (e : exn).
Arguments Ok {A} a.
Arguments Raise {A} e.

#[global] Instance result_ret : MRet result := @Ok.
#[global] Instance result_bind : MBind result := λ A B k r,
  match r with
  | Ok a => k a
  | Raise e => Raise e
  end.

#[global] Instance result_fmap : FMap result := λ A B f r,
  match r with
  | Ok a => Ok (f a)
  | Raise e => Raise e
  end.

(** ** Python strings *)

Module PyStr.

(** The double-quote character. *)
Definition dquote : ascii := ascii_of_nat 34.

(** [jq s] is [s] with every apostrophe turned into a double quote; JSON
    text in the examples below is written with apostrophes. *)
Fixpoint jq (s : string) : string :=
  match s with
  | EmptyString => EmptyString
  | String c r => String (if (c =? "'")%char then dquote else c) (jq r)
  end.

(** [s.startswith(p)] *)
Fixpoint startswith (s p : string) {struct s} : bool :=
  match p, s with
  | EmptyString, _ => true
  | String _ _, EmptyString => false
  | String a p', String b s' => (a =? b)%char && startswith s' p'
  end.

(** [s[n:]] *)
Fixpoint drop (n : nat) (s : string) : string :=
  match n, s with
  | O, _ => s
  | S _, EmptyString => EmptyString
  | S n', String _ s' => drop n' s'
  end.

(** Worker of [replace] for a non-empty pattern: scan left to right; the
    characters of a match just replaced are skipped ([skip] counts those
    still to pass), so matches never overlap. *)
Fixpoint replace_from (old new : string) (skip : nat) (s : string) : string :=
  match s with
  | EmptyString => EmptyString
  | String c s' =>
      match skip with
      | S k => replace_from old new k s'
      | O =>
          if startswith s old
          then new +:+ replace_from old new (Nat.pred (String.length old)) s'
          else String c (replace_from old new O s')
      end
  end.

(** An empty pattern matches between any two characters and at both ends. *)
Fixpoint intersperse (new s : string) : string :=
  match s with
  | EmptyString => new
  | String c s' => new +:+ String c (intersperse new s')
  end.

(** [s.replace(old, new)]: every non-overlapping occurrence, from the left. *)
Definition replace (s old new : string) : string :=
  match old with
  | EmptyString => intersperse new s
  | String _ _ => replace_from old new O s
  end.

(** [p in s] for strings. *)
Fixpoint contains (s p : string) : bool :=
  startswith s p ||
  match s with
  | EmptyString => false
  | String _ s' => contains s' p
  end.

(** [str(n)] for an integer. *)
Definition str_of_int (n : Z) : string := NilZero.string_of_int (Z.to_int n).

Definition byte (c : ascii) : N := N_of_ascii c.

Definition cont (c : ascii) : bool := (128 <=? byte c)%N && (byte c <=? 191)%N.

Definition between (lo hi : N) (c : ascii) : bool :=
  (lo <=? byte c)%N && (byte c <=? hi)%N.

(** Well-formed UTF-8 (no overlong forms, no surrogates, at most U+10FFFF),
    what the strict decoder accepts. *)
Fixpoint utf8_valid (s : string) : bool :=
  match s with
  | EmptyString => true
  | String c0 r0 =>
      if (byte c0 <=? 127)%N then utf8_valid r0
      else
        match r0 with
        | EmptyString => false
        | String c1 r1 =>
            if between 194 223 c0 then cont c1 && utf8_valid r1
            else
              match r1 with
              | EmptyString => false
              | String c2 r2 =>
                  if between 224 239 c0 then
                    (if (byte c0 =? 224)%N then between 160 191 c1
                     else if (byte c0 =? 237)%N then between 128 159 c1
                     else cont c1)
                    && cont c2 && utf8_valid r2
                  else
                    match r2 with
                    | EmptyString => false
                    | String c3 r3 =>
                        between 240 244 c0
                        && (if (byte c0 =? 240)%N then between 144 191 c1
                            else if (byte c0 =? 244)%N then between 128 143 c1
                            else cont c1)
                        && cont c2 && cont c3 && utf8_valid r3
                    end
              end
        end
  end.

(** [line.decode("utf-8")] *)
Definition decode_utf8 (b : string) : result string :=
  if utf8_valid b then Ok b else Raise UnicodeDecodeError.

Definition chr (n : N) : ascii := ascii_of_N n.

(** The UTF-8 bytes of code point [cp]; a lone surrogate, which a Python
    string can hold, gets the three-byte form. *)
Definition utf8_encode (cp : N) : string :=
  if (cp <? 128)%N then String (chr cp) EmptyString
  else if (cp <? 2048)%N then
    String (chr (192 + cp / 64)) (String (chr (128 + cp mod 64)) EmptyString)
  else if (cp <? 65536)%N then
    String (chr (224 + cp / 4096))
      (String (chr (128 + (cp / 64) mod 64))
         (String (chr (128 + cp mod 64)) EmptyString))
  else
    String (chr (240 + cp / 262144))
      (String (chr (128 + (cp / 4096) mod 64))
         (String (chr (128 + (cp / 64) mod 64))
            (String (chr (128 + cp mod 64)) EmptyString))).

End PyStr.

(** ** JSON values and Python dictionaries *)

(** A dictionary keeps its keys in insertion order. *)
Abbreviation pydict V := (list (string * V)).

Section Dict.
Context {V : Type}.

(** [d[k]], [None] when the key is absent *)
Fixpoint dict_get (d : pydict V) (k : string) : option V :=
  match d with
  | [] => None
  | (k', v) :: d' => if String.eqb k' k then Some v else dict_get d' k
  end.

(** [k in d] *)
Definition dict_in (d : pydict V) (k : string) : bool :=
  match dict_get d k with Some _ => true | None => false end.

(** [d[k] = v]: an existing key keeps its position, a new one goes last. *)
Fixpoint dict_set (d : pydict V) (k : string) (v : V) : pydict V :=
  match d with
  | [] => [(k, v)]
  | (k', v') :: d' =>
      if String.eqb k' k then (k', v) :: d' else (k', v') :: dict_set d' k v
  end.

(** [d.update(other)] for a dictionary [other]: its items are stored one
    by one, in order. *)
Definition dict_update (d other : pydict V) : pydict V :=
  fold_left (λ acc kv, dict_set acc kv.1 kv.2) other d.
End Dict.

(** What [json.loads] returns.  Integers are exact; a number with a fraction
    or an exponent (and NaN, Infinity) is kept as its source text. *)
#[warnings="-register-all"]
Inductive json : Type :=
| JNull
| JBool (b : bool)
| JInt (n : Z)
| JFloat (lexeme : string)
| JStr (s : string)
| JList (l : list json)
| JObject (d : list (string * json)).

(** [j[k]] with a string key. *)
Definition subscript (j : json) (k : string) : result json :=
  match j with
  | JObject d =>
      match dict_get d k with
      | Some v => Ok v
      | None => Raise (KeyError k)
      end
  | _ => Raise TypeError
  end.

(** [j == s] for a string literal [s]. *)
Definition eq_str (j : json) (s : string) : bool :=
  match j with
  | JStr s' => String.eqb s' s
  | _ => false
  end.

(** [k in j] with a string [k]. *)
Definition json_in (k : string) (j : json) : result bool :=
  match j with
  | JObject d => Ok (dict_in d k)
  | JList l => Ok (existsb (λ x, eq_str x k) l)
  | JStr s => Ok (PyStr.contains s k)
  | _ => Raise TypeError
  end.

(** ** [json.loads]

    The standard decoder: whitespace is space, tab, line feed and carriage
    return; strings are strict (no raw control characters); a repeated key
    keeps its first position and its last value; NaN, Infinity and -Infinity
    are accepted; anything after the document is an error. *)

Module Json.
Import PyStr.

Inductive parsed (A : Type) : Type :=
| Parsed (a : A) (rest : string)
| Syntax
| Fuel.
Arguments Parsed {A} a rest.
Arguments Syntax {A}.
Arguments Fuel {A}.

Definition is_ws (c : ascii) : bool :=
  (byte c =? 32)%N || (byte c =? 9)%N || (byte c =? 10)%N || (byte c =? 13)%N.

Fixpoint skip_ws (s : string) : string :=
  match s with
  | String c r => if is_ws c then skip_ws r else s
  | EmptyString => s
  end.

Definition is_digit (c : ascii) : bool := between 48 57 c.

(** The longest prefix of digits, and what follows it. *)
Fixpoint span_digits (s : string) : string * string :=
  match s with
  | String c r =>
      if is_digit c then let '(ds, r') := span_digits r in (String c ds, r')
      else (EmptyString, s)
  | EmptyString => (EmptyString, s)
  end.

Definition digits_value (ds : string) : Z :=
  fold_left (λ acc c, 10 * acc + (Z.of_N (byte c) - 48)) (list_ascii_of_string ds) 0.

Definition hex_val (c : ascii) : option N :=
  if between 48 57 c then Some (byte c - 48)%N
  else if between 97 102 c then Some (byte c - 87)%N
  else if between 65 70 c then Some (byte c - 55)%N
  else None.

(** The value of the four hexadecimal digits [s] starts with. *)
Definition hex4 (s : string) : option N :=
  match s with
  | String a (String b (String c (String d _))) =>
      x ← hex_val a; y ← hex_val b; z ← hex_val c; w ← hex_val d;
      Some (((x * 16 + y) * 16 + z) * 16 + w)%N
  | _ => None
  end.

(** The text of a string literal, from after its opening quote up to its
    closing quote, escapes still in place, and what follows the quote. *)
Fixpoint split_literal (escaped : bool) (s : string) : option (string * string) :=
  match s with
  | EmptyString => None
  | String c r =>
      if escaped then
        '(body, rest) ← split_literal false r; Some (String c body, rest)
      else if (c =? dquote)%char then Some (EmptyString, r)
      else if (c =? "\")%char then
        '(body, rest) ← split_literal true r; Some (String c body, rest)
      else if (byte c <? 32)%N then None
      else '(body, rest) ← split_literal false r; Some (String c body, rest)
  end.

(** The characters an escape stands for, and how many characters it takes
    after its backslash; [s] is the text after the backslash. *)
Definition escape_at (s : string) : option (string * nat) :=
  match s with
  | EmptyString => None
  | String c r =>
      let one (n : N) := Some (String (chr n) EmptyString, 1%nat) in
      if (c =? dquote)%char then one 34%N
      else if (c =? "\")%char then one 92%N
      else if (c =? "/")%char then one 47%N
      else if (c =? "b")%char then one 8%N
      else if (c =? "f")%char then one 12%N
      else if (c =? "n")%char then one 10%N
      else if (c =? "r")%char then one 13%N
      else if (c =? "t")%char then one 9%N
      else if (c =? "u")%char then
        hi ← hex4 r;
        let single := Some (utf8_encode hi, 5%nat) in
        if (55296 <=? hi)%N && (hi <=? 56319)%N && startswith (drop 4 r) "\u" then
          match hex4 (drop 6 r) with
          | Some lo =>
              if (56320 <=? lo)%N && (lo <=? 57343)%N
              then Some (utf8_encode (65536 + (hi - 55296) * 1024 + (lo - 56320))%N,
                         11%nat)
              else single
          | None => single
          end
        else single
      else None
  end.

(** Resolve the escapes of a literal's text. *)
Fixpoint unescape (skip : nat) (s : string) : option string :=
  match s with
  | EmptyString => Some EmptyString
  | String c r =>
      match skip with
      | S k => unescape k r
      | O =>
          if (c =? "\")%char then
            '(out, used) ← escape_at r;
            tail ← unescape used r;
            Some (out +:+ tail)
          else tail ← unescape O r; Some (String c tail)
      end
  end.

(** A string literal, from after its opening quote. *)
Definition scan_string (s : string) : option (string * string) :=
  '(body, rest) ← split_literal false s;
  text ← unescape O body;
  Some (text, rest).

(** [eat c s] is [s] without its first character, which must be [c]. *)
Definition eat (c : ascii) (s : string) : option string :=
  match s with
  | String c' r => if (c' =? c)%char then Some r else None
  | EmptyString => None
  end.

(** A number: an optional minus sign, then 0 or a digit 1-9 followed by
    digits; then an optional fraction (a dot and at least one digit) and an
    optional exponent (e or E, an optional sign, at least one digit). *)
Definition scan_number (s : string) : option (json * string) :=
  let '(sign, s1) :=
    match eat "-" s with
    | Some r => ("-", r)
    | None => (EmptyString, s)
    end in
  '(int, s2) ←
    match s1 with
    | String c r =>
        if (c =? "0")%char then Some ("0", r)
        else if is_digit c then
          let '(ds, r') := span_digits r in Some (String c ds, r')
        else None
    | EmptyString => None
    end;
  let '(frac, s3) :=
    match eat "." s2 with
    | Some r =>
        match span_digits r with
        | (String d ds, r') => ("." +:+ String d ds, r')
        | (EmptyString, _) => (EmptyString, s2)
        end
    | None => (EmptyString, s2)
    end in
  let '(exp, s4) :=
    match s3 with
    | String e r =>
        if (e =? "e")%char || (e =? "E")%char then
          let '(sg, r1) :=
            match eat "+" r, eat "-" r with
            | Some r', _ => ("+", r')
            | None, Some r' => ("-", r')
            | None, None => (EmptyString, r)
            end in
          match span_digits r1 with
          | (String d ds, r2) => (String e (sg +:+ String d ds), r2)
          | (EmptyString, _) => (EmptyString, s3)
          end
        else (EmptyString, s3)
    | EmptyString => (EmptyString, s3)
    end in
  match frac, exp with
  | EmptyString, EmptyString =>
      let n := digits_value int in
      Some (JInt (match sign with EmptyString => n | String _ _ => - n end), s4)
  | _, _ => Some (JFloat (sign +:+ int +:+ frac +:+ exp), s4)
  end.

(** A literal word: [w] must be a prefix of [s]. *)
Definition keyword (w : string) (v : json) (s : string) : parsed json :=
  if startswith s w then Parsed v (drop (String.length w) s) else Syntax.

Definition of_option {A} (o : option (A * string)) : parsed A :=
  match o with
  | Some (a, rest) => Parsed a rest
  | None => Syntax
  end.

(** One value starting at the first character of [s].  [parse_members] and
    [parse_elems] start at the first key of an object and the first element
    of a list, and carry what was read so far. *)
Fixpoint parse_value (fuel : nat) (s : string) : parsed json :=
  match fuel with
  | O => Fuel
  | S fuel' =>
      match s with
      | EmptyString => Syntax
      | String c r =>
          if (c =? dquote)%char then
            match scan_string r with
            | Some (text, rest) => Parsed (JStr text) rest
            | None => Syntax
            end
          else if (c =? "{")%char then
            match eat "}" (skip_ws r) with
            | Some rest => Parsed (JObject []) rest
            | None => parse_members fuel' (skip_ws r) []
            end
          else if (c =? "[")%char then
            match eat "]" (skip_ws r) with
            | Some rest => Parsed (JList []) rest
            | None => parse_elems fuel' (skip_ws r) []
            end
          else if (c =? "n")%char then keyword "null" JNull s
          else if (c =? "t")%char then keyword "true" (JBool true) s
          else if (c =? "f")%char then keyword "false" (JBool false) s
          else if (c =? "N")%char then keyword "NaN" (JFloat "NaN") s
          else if (c =? "I")%char then keyword "Infinity" (JFloat "Infinity") s
          else if startswith s "-I" then keyword "-Infinity" (JFloat "-Infinity") s
          else of_option (scan_number s)
      end
  end
with parse_members (fuel : nat) (s : string) (acc : list (string * json))
  : parsed json :=
  match fuel with
  | O => Fuel
  | S fuel' =>
      match eat dquote s with
      | None => Syntax
      | Some r =>
          match scan_string r with
          | None => Syntax
          | Some (key, r1) =>
              match eat ":" (skip_ws r1) with
              | None => Syntax
              | Some r2 =>
                  match parse_value fuel' (skip_ws r2) with
                  | Parsed v r3 =>
                      let acc' := dict_set acc key v in
                      match eat "}" (skip_ws r3) with
                      | Some rest => Parsed (JObject acc') rest
                      | None =>
                          match eat "," (skip_ws r3) with
                          | Some r4 => parse_members fuel' (skip_ws r4) acc'
                          | None => Syntax
                          end
                      end
                  | Syntax => Syntax
                  | Fuel => Fuel
                  end
              end
          end
      end
  end
with parse_elems (fuel : nat) (s : string) (acc : list json) : parsed json :=
  match fuel with
  | O => Fuel
  | S fuel' =>
      match parse_value fuel' s with
      | Parsed v r1 =>
          let acc' := (acc ++ [v])%list in
          match eat "]" (skip_ws r1) with
          | Some rest => Parsed (JList acc') rest
          | None =>
              match eat "," (skip_ws r1) with
              | Some r2 => parse_elems fuel' (skip_ws r2) acc'
              | None => Syntax
              end
          end
      | Syntax => Syntax
      | Fuel => Fuel
      end
  end.

(** [json.loads(s)] *)
Definition loads (s : string) : result json :=
  match parse_value (2 * String.length s + 2) (skip_ws s) with
  | Parsed v rest =>
      match skip_ws rest with
      | EmptyString => Ok v
      | String _ _ => Raise JSONDecodeError
      end
  | Syntax => Raise JSONDecodeError
  | Fuel => Raise Unmodelled
  end.

End Json.

(** ** The object store *)

Abbreviation loc := nat.

(** A value held by a mutable dictionary: immutable data, or a reference to
    another dictionary of the store. *)
Inductive pyval : Type :=
| VJson (j : json)
| VRef (l : loc).

Abbreviation heap := (gmap loc (pydict pyval)).

(** Computations that read and write the store and may raise.  What was
    written before an exception stays written. *)
Definition M (A : Type) : Type := heap → result A * heap.

#[global] Instance M_ret : MRet M := λ A a h, (Ok a, h).
#[global] Instance M_bind : MBind M := λ A B k m h,
  match m h with
  | (Ok a, h') => k a h'
  | (Raise e, h') => (Raise e, h')
  end.

Module Py.

Definition raise {A} (e : exn) : M A := λ h, (Raise e, h).

Definition lift {A} (r : result A) : M A := λ h, (r, h).

(** A new dictionary object. *)
Definition alloc (d : pydict pyval) : M loc := λ h,
  let l := fresh (dom h) in (Ok l, <[l := d]> h).

Definition load (l : loc) : M (pydict pyval) := λ h,
  match h !! l with
  | Some d => (Ok d, h)
  | None => (Raise Unmodelled, h)
  end.

Definition store (l : loc) (d : pydict pyval) : M unit := λ h,
  (Ok (), <[l := d]> h).

(** [v[k]] *)
Definition getitem (v : pyval) (k : string) : M pyval :=
  match v with
  | VRef l =>
      d ← load l;
      match dict_get d k with
      | Some x => mret x
      | None => raise (KeyError k)
      end
  | VJson j => lift (VJson <$> subscript j k)
  end.

(** [v[k] = x]: the dictionary [v] refers to is updated in place, whoever
    else refers to it.  Immutable [json] objects are only ever read by the
    code; assigning into one is outside the model. *)
Definition setitem (v : pyval) (k : string) (x : pyval) : M unit :=
  match v with
  | VRef l => d ← load l; store l (dict_set d k x)
  | VJson (JObject _) => raise Unmodelled
  | VJson _ => raise TypeError
  end.

(** [d.copy()]: a new dictionary with the same items; values that are
    references are shared with the original (a shallow copy). *)
Definition copy (l : loc) : M loc := d ← load l; alloc d.

(** [v.update(other)] with [other] as decoded from JSON.  A dictionary is
    merged item by item; a number, boolean or null is not iterable; the
    characters of a non-empty string are not key/value pairs; an empty
    string or list has nothing to merge.  A non-empty list (of pairs) is
    outside the model. *)
Definition update (v : pyval) (other : json) : M unit :=
  match v with
  | VRef l =>
      d ← load l;
      match other with
      | JObject o => store l (dict_update d (prod_map id VJson <$> o))
      | JNull | JBool _ | JInt _ | JFloat _ => raise TypeError
      | JStr EmptyString | JList [] => mret ()
      | JStr (String _ _) =>
          raise (ValueError
            "dictionary update sequence element #0 has length 1; 2 is required")
      | JList (_ :: _) => raise Unmodelled
      end
  | VJson _ => raise Unmodelled
  end.

(** All the items, or the first exception among them. *)
Fixpoint collect (items : list (string * result json))
  : result (list (string * json)) :=
  match items with
  | [] => Ok []
  | (k, r) :: items' => j ← r; rest ← collect items'; Ok ((k, j) :: rest)
  end.

(** The JSON document a value stands for, references followed; [fuel]
    bounds the depth. *)
Fixpoint snapshot_at (fuel : nat) (h : heap) (v : pyval) : result json :=
  match v with
  | VJson j => Ok j
  | VRef l =>
      match fuel with
      | O => Raise Unmodelled
      | S fuel' =>
          match h !! l with
          | None => Raise Unmodelled
          | Some d =>
              JObject <$> collect ((λ kv, (kv.1, snapshot_at fuel' h kv.2)) <$> d)
          end
      end
  end.

(** A chain of distinct references is no longer than the store is large. *)
Definition snapshot (v : pyval) : M json := λ h,
  (snapshot_at (S (size h)) h v, h).

End Py.

(** ** The program *)

(** *** [DifySchema] *)

Record DifySchema : Type := {
  dify_type : string;
  user_input_key : string;
  response_mode : option string;
  user : string;
}.

(** A Python [Optional[str]] as data. *)
Definition of_optional (o : option string) : json :=
  match o with
  | Some s => JStr s
  | None => JNull
  end.

(** [o == s] for an optional string [o] and a string literal [s]. *)
Definition is_str (o : option string) (s : string) : bool :=
  match o with
  | Some s' => (s' =? s)%string
  | None => false
  end.

(** [DifySchema.get_schema]: every call builds a new dictionary with a new,
    empty [inputs] dictionary inside. *)
Definition get_schema (self : DifySchema) : M loc :=
  if (dify_type self =? "workflow")%string then
    inputs ← Py.alloc [];
    Py.alloc [("inputs", VRef inputs);
              ("response_mode", VJson (of_optional (response_mode self)));
              ("user", VJson (JStr (user self)))]
  else if (dify_type self =? "agent")%string then
    inputs ← Py.alloc [];
    Py.alloc [("inputs", VRef inputs);
              ("query", VJson (JStr (user_input_key self)));
              ("response_mode", VJson (of_optional (response_mode self)));
              ("user", VJson (JStr (user self)))]
  else if (dify_type self =? "chat")%string then
    inputs ← Py.alloc [];
    Py.alloc [("inputs", VRef inputs);
              ("query", VJson (JStr EmptyString));
              ("response_mode", VJson (of_optional (response_mode self)));
              ("user", VJson (JStr (user self)))]
  else if (dify_type self =? "completion")%string then
    inputs ← Py.alloc [];
    Py.alloc [("inputs", VRef inputs);
              ("response_mode", VJson (of_optional (response_mode self)));
              ("user", VJson (JStr (user self)))]
  else
    Py.raise (ValueError
      "Invalid dify_type. Must be 'completion', 'workflow', 'agent', or 'chat'").

(** *** [Pipeline.Valves] *)

Record Valves : Type := {
  APP_NAME : string;
  HOST_URL : string;
  DIFY_API_KEY : string;
  USER_INPUT_KEY : string;
  USER_INPUTS : string;
  DIFY_TYPE : string;
  RESPONSE_MODE : option string;
  VERIFY_SSL : option bool;
}.

(** An argument handed to the [Valves] constructor. *)
Inductive pyarg : Type :=
| AStr (s : string)
| ABool (b : bool)
| AList (l : list string).

Definition lower (s : string) : string :=
  string_of_list_ascii
    ((λ c, if PyStr.between 65 90 c then PyStr.chr (PyStr.byte c + 32) else c)
       <$> list_ascii_of_string s).

(** The settings library reads a string given for a boolean field by its
    lower-cased spelling. *)
Definition bool_of_str (s : string) : result bool :=
  let w := lower s in
  if existsb (String.eqb w) ["1"; "on"; "t"; "true"; "y"; "yes"] then Ok true
  else if existsb (String.eqb w) ["0"; "off"; "f"; "false"; "n"; "no"] then Ok false
  else Raise ValidationError.

Definition required_str (kw : pydict pyarg) (k : string) : result string :=
  match dict_get kw k with
  | Some (AStr s) => Ok s
  | _ => Raise ValidationError
  end.

Definition optional_str (kw : pydict pyarg) (k : string) (default : option string)
  : result (option string) :=
  match dict_get kw k with
  | None => Ok default
  | Some (AStr s) => Ok (Some s)
  | Some _ => Raise ValidationError
  end.

Definition optional_bool (kw : pydict pyarg) (k : string) (default : option bool)
  : result (option bool) :=
  match dict_get kw k with
  | None => Ok default
  | Some (ABool b) => Ok (Some b)
  | Some (AStr s) => Some <$> bool_of_str s
  | Some (AList _) => Raise ValidationError
  end.

(** The [Valves] constructor applied to keyword arguments: the six required
    string fields, and the two optional fields with their class defaults
    ["streaming"] and [True]; keys that name no field are ignored. *)
Definition new_Valves (kw : pydict pyarg) : result Valves :=
  app_name ← required_str kw "APP_NAME";
  host_url ← required_str kw "HOST_URL";
  api_key ← required_str kw "DIFY_API_KEY";
  input_key ← required_str kw "USER_INPUT_KEY";
  inputs ← required_str kw "USER_INPUTS";
  type ← required_str kw "DIFY_TYPE";
  mode ← optional_str kw "RESPONSE_MODE" (Some "streaming");
  verify ← optional_bool kw "VERIFY_SSL" (Some true);
  Ok {| APP_NAME := app_name; HOST_URL := host_url; DIFY_API_KEY := api_key;
        USER_INPUT_KEY := input_key; USER_INPUTS := inputs; DIFY_TYPE := type;
        RESPONSE_MODE := mode; VERIFY_SSL := verify |}.

(** *** [Pipeline] *)

Record Pipeline : Type := {
  valves : Valves;
  name : string;
  headers : option (pydict string);
  data_schema : loc;
  debug : bool;
}.

(** The process environment, and [os.getenv] with and without a default. *)
Abbreviation environ := (gmap string string).

Definition getenv (env : environ) (k : string) (default : pyarg) : pyarg :=
  match env !! k with
  | Some s => AStr s
  | None => default
  end.

(** The arguments [__init__] builds for [Valves]. *)
Definition valves_kwargs (env : environ) : pydict pyarg :=
  [("pipelines", AList ["*"]);
   ("APP_NAME", getenv env "APP_NAME" (AStr "My Dify Pipeline Local"));
   ("HOST_URL", getenv env "HOST_URL" (AStr "http://host.docker.internal"));
   ("DIFY_API_KEY", getenv env "DIFY_API_KEY" (AStr "YOUR_DIFY_API_KEY"));
   ("USER_INPUT_KEY", getenv env "USER_INPUT_KEY" (AStr "input"));
   ("USER_INPUTS",
     match env !! "USER_INPUTS" with
     | Some (String c s) => AStr (String c s)
     | Some EmptyString | None => AStr "{}"
     end);
   ("DIFY_TYPE", getenv env "DIFY_TYPE" (AStr "workflow"));
   ("RESPONSE_MODE", getenv env "RESPONSE_MODE" (AStr "streaming"));
   ("VERIFY_SSL", getenv env "VERIFY_SSL" (ABool false))].

(** [Pipeline.__init__] *)
Definition __init__ (env : environ) : M Pipeline :=
  v ← Py.lift (new_Valves (valves_kwargs env));
  schema ← get_schema {| dify_type := DIFY_TYPE v;
                         user_input_key := USER_INPUT_KEY v;
                         response_mode := RESPONSE_MODE v;
                         user := EmptyString |};
  mret {| valves := v; name := APP_NAME v; headers := None;
          data_schema := schema; debug := false |}.

(** [Pipeline.create_api_url] *)
Definition create_api_url (self : Pipeline) : result string :=
  let v := valves self in
  if (DIFY_TYPE v =? "workflow")%string then Ok (HOST_URL v +:+ "/v1/workflows/run")
  else if (DIFY_TYPE v =? "agent")%string then Ok (HOST_URL v +:+ "/v1/chat-messages")
  else if (DIFY_TYPE v =? "chat")%string then Ok (HOST_URL v +:+ "/v1/chat-messages")
  else if (DIFY_TYPE v =? "completion")%string then
    Ok (HOST_URL v +:+ "/v1/completion-messages")
  else Raise (ValueError ("Invalid Dify type: " +:+ DIFY_TYPE v)).

(** [Pipeline.set_data_schema] *)
Definition set_data_schema (self : Pipeline) (schema : loc) : Pipeline :=
  {| valves := valves self; name := name self; headers := headers self;
     data_schema := schema; debug := debug self |}.

(** *** The HTTP exchange

    [requests.post] is given by the environment.  It raises a
    [RequestException] (connection refused, TLS failure, ...) or returns a
    response; the lines of a streamed response arrive one by one and the
    stream may break with a [RequestException] after some of them. *)

Record request : Type := {
  url : string;
  req_headers : pydict string;
  body_json : json;
  verify : option bool;
  stream : bool;
}.

Inductive stream_end : Type :=
| Exhausted
| Broken (msg : string).

Record response : Type := {
  status_code : Z;
  text : string;
  lines : list string;
  ending : stream_end;
}.

Inductive reply : Type :=
| Refused (msg : string)
| Answered (r : response).

(** What a consumer of the generator observes: the values yielded, then a
    normal end or an exception. *)
Record trace : Type := {
  fragments : list json;
  raised : option exn;
}.

Definition yield_then (frs : list json) (t : trace) : trace :=
  {| fragments := frs ++ fragments t; raised := raised t |}.

Definition stop : trace := {| fragments := []; raised := None |}.

Definition throw (e : exn) : trace := {| fragments := []; raised := Some e |}.

(** *** [Pipeline.pipe] *)

(** Lines 233-238: the user message goes where the mode wants it. *)
Definition place_message (v : Valves) (data : loc) (user_message : string)
  : M unit :=
  if (DIFY_TYPE v =? "workflow")%string then
    inputs ← Py.getitem (VRef data) "inputs";
    Py.setitem inputs (USER_INPUT_KEY v) (VJson (JStr user_message))
  else if (DIFY_TYPE v =? "agent")%string || (DIFY_TYPE v =? "chat")%string then
    Py.setitem (VRef data) "query" (VJson (JStr user_message))
  else if (DIFY_TYPE v =? "completion")%string then
    inputs ← Py.getitem (VRef data) "inputs";
    Py.setitem inputs "query" (VJson (JStr user_message))
  else mret ().

(** Line 239, right-hand side: [body["user"]["email"]]. *)
Definition caller_email (body : json) : result json :=
  u ← subscript body "user"; subscript u "email".

(** Lines 242-244: the configured extra inputs are merged into [inputs]. *)
Definition merge_inputs (v : Valves) (data : loc) : M unit :=
  match USER_INPUTS v with
  | String _ _ =>
      inputs_dict ← Py.lift (Json.loads (USER_INPUTS v));
      inputs ← Py.getitem (VRef data) "inputs";
      Py.update inputs inputs_dict
  | EmptyString => mret ()
  end.

(** Lines 232-254 up to the call of [requests.post]: the request to send. *)
Definition prepare (self : Pipeline) (user_message : string) (body : json)
  : M request :=
  let v := valves self in
  data ← Py.copy (data_schema self);
  _ ← place_message v data user_message;
  email ← Py.lift (caller_email body);
  _ ← Py.setitem (VRef data) "user" (VJson email);
  _ ← merge_inputs v data;
  target ← Py.lift (create_api_url self);
  sent ← Py.snapshot (VRef data);
  mret {| url := target;
          req_headers := default [] (headers self);
          body_json := sent;
          verify := VERIFY_SSL v;
          stream := is_str (RESPONSE_MODE v) "streaming" |}.

(** Lines 267-279: what one event yields.  An exception can only come from
    reading a field, before anything is yielded. *)
Definition decode_event (data : json) : result (list json) :=
  event ← subscript data "event";
  if eq_str event "text_chunk" then
    d ← subscript data "data"; t ← subscript d "text"; Ok [t]
  else if eq_str event "agent_message" || eq_str event "message"
          || eq_str event "completion" then
    has_answer ← json_in "answer" data;
    if has_answer : bool then a ← subscript data "answer"; Ok [a]
    else d ← subscript data "data"; t ← subscript d "text"; Ok [t]
  else if eq_str event "workflow_finished" then
    d ← subscript data "data"; o ← subscript d "outputs";
    out ← subscript o "output"; Ok [out]
  else Ok [].

(** Lines 262-281: one line of the stream.  Decoding the bytes is outside
    the inner [try]; whatever is raised inside it is swallowed. *)
Definition decode_line (line : string) : result (list json) :=
  match line with
  | EmptyString => Ok []
  | String _ _ =>
      decoded_line ← PyStr.decode_utf8 line;
      if PyStr.startswith decoded_line "data: " then
        match data ← Json.loads (PyStr.replace decoded_line "data: " EmptyString);
              decode_event data with
        | Ok frs => Ok frs
        | Raise _ => Ok []
        end
      else Ok []
  end.

(** Lines 261-281: the loop over [response.iter_lines()]. *)
Fixpoint decode_stream (ls : list string) (e : stream_end) : trace :=
  match ls with
  | [] =>
      match e with
      | Exhausted => stop
      | Broken msg => throw (RequestException msg)
      end
  | line :: ls' =>
      match decode_line line with
      | Ok frs => yield_then frs (decode_stream ls' e)
      | Raise err => throw err
      end
  end.

(** Lines 283-287 *)
Definition decode_blocking (body : string) : trace :=
  match Json.loads body with
  | Ok response_data => yield_then [response_data] stop
  | Raise JSONDecodeError =>
      yield_then [JStr ("Failed to parse JSON response. Raw response: " +:+ body)] stop
  | Raise err => throw err
  end.

(** Lines 256-287: what is done with a response. *)
Definition decode_response (v : Valves) (r : response) : trace :=
  yield_then
    (if status_code r =? 200 then []
     else [JStr ("API request failed with status code "
                 +:+ PyStr.str_of_int (status_code r) +:+ ": " +:+ text r)])
    (if is_str (RESPONSE_MODE v) "streaming"
     then decode_stream (lines r) (ending r)
     else decode_blocking (text r)).

(** Lines 289-290: the handler around the whole body. *)
Definition except_RequestException (t : trace) : trace :=
  match raised t with
  | Some (RequestException msg) =>
      {| fragments := fragments t ++ [JStr ("API request failed: " +:+ msg)];
         raised := None |}
  | _ => t
  end.

(** A call of [pipe], its generator run to the end. *)
Record outcome : Type := {
  self_after : Pipeline;
  heap_after : heap;
  sent : option request;
  output : trace;
}.

(** Lines 225-229 *)
Definition set_headers (self : Pipeline) : Pipeline :=
  {| valves := valves self;
     name := APP_NAME (valves self);
     headers := Some [("Authorization", "Bearer " +:+ DIFY_API_KEY (valves self));
                      ("Content-Type", "application/json")];
     data_schema := data_schema self;
     debug := debug self |}.

Definition pipe (post : request → reply) (self : Pipeline)
    (user_message model_id : string) (messages : list json) (body : json)
    (h : heap) : outcome :=
  let self := set_headers self in
  match prepare self user_message body h with
  | (Raise e, h') =>
      {| self_after := self; heap_after := h'; sent := None;
         output := except_RequestException (throw e) |}
  | (Ok req, h') =>
      {| self_after := self; heap_after := h'; sent := Some req;
         output := except_RequestException
                     match post req with
                     | Refused msg => throw (RequestException msg)
                     | Answered r => decode_response (valves self) r
                     end |}
  end.

(** ** Well-formed states

    The shape [__init__] gives the store and [pipe] keeps: the template
    [data_schema] is a dictionary whose ["inputs"] item refers to another
    dictionary, and everything else in the two is plain data. *)

Definition is_json (x : pyval) : bool :=
  match x with
  | VJson _ => true
  | VRef _ => false
  end.

Definition refers_to (l : loc) (x : pyval) : bool :=
  match x with
  | VRef l' => (l' =? l)%nat
  | VJson _ => false
  end.

Definition well_formed (self : Pipeline) (h : heap) : bool :=
  match h !! data_schema self with
  | Some schema =>
      match dict_get schema "inputs" with
      | Some (VRef li) =>
          negb (li =? data_schema self)%nat
          && forallb (λ kv, is_json kv.2 || refers_to li kv.2) schema
          && match h !! li with
             | Some inputs => forallb (λ kv, is_json kv.2) inputs
             | None => false
             end
      | _ => false
      end
  | None => false
  end.

(** [j[k1][k2]...] *)
Definition path (j : json) (ks : list string) : result json :=
  foldl (λ r k, x ← r; subscript x k) (Ok j) ks.

(** The document of a dictionary [d] whose references all lead to the flat
    dictionary [inputs]. *)
Definition unwrap (x : pyval) : json :=
  match x with
  | VJson j => j
  | VRef _ => JNull
  end.

Definition render (inputs d : pydict pyval) : list (string * json) :=
  prod_map id (λ x, match x with
                    | VJson j => j
                    | VRef _ => JObject (prod_map id unwrap <$> inputs)
                    end) <$> d.

(** Where [place_message] leaves the message, given the template [schema]
    and its [inputs]. *)
Definition placed_schema (v : Valves) (msg : string) (schema : pydict pyval)
  : pydict pyval :=
  if (DIFY_TYPE v =? "workflow")%string then schema
  else if (DIFY_TYPE v =? "agent")%string || (DIFY_TYPE v =? "chat")%string
  then dict_set schema "query" (VJson (JStr msg))
  else schema.

Definition placed_inputs (v : Valves) (msg : string) (inputs : pydict pyval)
  : pydict pyval :=
  if (DIFY_TYPE v =? "workflow")%string
  then dict_set inputs (USER_INPUT_KEY v) (VJson (JStr msg))
  else if (DIFY_TYPE v =? "agent")%string || (DIFY_TYPE v =? "chat")%string
  then inputs
  else if (DIFY_TYPE v =? "completion")%string
  then dict_set inputs "query" (VJson (JStr msg))
  else inputs.

(** The items [merge_inputs] merges, or the exception it raises. *)
Definition extra_inputs (v : Valves) : result (list (string * json)) :=
  match USER_INPUTS v with
  | EmptyString => Ok []
  | String _ _ =>
      j ← Json.loads (USER_INPUTS v);
      match j with
      | JObject o => Ok o
      | JStr EmptyString | JList [] => Ok []
      | JNull | JBool _ | JInt _ | JFloat _ => Raise TypeError
      | JStr (String _ _) =>
          Raise (ValueError
            "dictionary update sequence element #0 has length 1; 2 is required")
      | JList (_ :: _) => Raise Unmodelled
      end
  end.


(** ** Concrete data for the examples *)

(** The two synthetic stream lines of the specification. *)
Definition chunk_A : string :=
  PyStr.jq "data: {'event':'text_chunk','data':{'text':'A'}}".

Definition finished_DONE : string :=
  PyStr.jq "data: {'event':'workflow_finished','data':{'outputs':{'output':'DONE'}}}".

(** A caller context with an e-mail, and one without a user. *)
Definition caller : json :=
  JObject [("user", JObject [("email", JStr "user@example.com")])].

Definition anonymous : json := JObject [("messages", JList [])].

(** The document of the dictionary that [m] returns. *)
Definition document (m : M loc) (h : heap) : result json :=
  match m h with
  | (Ok l, h') => Py.snapshot_at (S (size h')) h' (VRef l)
  | (Raise e, _) => Raise e
  end.

(** The pipeline and the store that [__init__] builds in an empty store from
    an environment that sets nothing: mode workflow, input key ["input"],
    streaming.  [with_inputs s] is the same with [USER_INPUTS] set to [s],
    [with_mode m] the same with [DIFY_TYPE] set to [m]. *)
Definition default_valves : Valves :=
  {| APP_NAME := "My Dify Pipeline Local";
     HOST_URL := "http://host.docker.internal";
     DIFY_API_KEY := "YOUR_DIFY_API_KEY";
     USER_INPUT_KEY := "input";
     USER_INPUTS := "{}";
     DIFY_TYPE := "workflow";
     RESPONSE_MODE := Some "streaming";
     VERIFY_SSL := Some false |}.

Definition default_pipeline : Pipeline :=
  {| valves := default_valves; name := "My Dify Pipeline Local";
     headers := None; data_schema := 1%nat; debug := false |}.

Definition default_heap : heap :=
  <[1%nat := [("inputs", VRef 0%nat);
              ("response_mode", VJson (JStr "streaming"));
              ("user", VJson (JStr EmptyString))]]> (<[0%nat := []]> ∅).

Definition with_inputs (s : string) : Pipeline :=
  {| valves := {| APP_NAME := "My Dify Pipeline Local";
                  HOST_URL := "http://host.docker.internal";
                  DIFY_API_KEY := "YOUR_DIFY_API_KEY";
                  USER_INPUT_KEY := "input";
                  USER_INPUTS := s;
                  DIFY_TYPE := "workflow";
                  RESPONSE_MODE := Some "streaming";
                  VERIFY_SSL := Some false |};
     name := "My Dify Pipeline Local";
     headers := None; data_schema := 1%nat; debug := false |}.

(** The value of [self.data_schema], the nested dictionary included. *)
Definition template (self : Pipeline) (h : heap) : result json :=
  Py.snapshot_at (S (size h)) h (VRef (data_schema self)).

Definition with_mode (m : string) : Pipeline :=
  {| valves := {| APP_NAME := "My Dify Pipeline Local";
                  HOST_URL := "http://host.docker.internal";
                  DIFY_API_KEY := "YOUR_DIFY_API_KEY";
                  USER_INPUT_KEY := "input";
                  USER_INPUTS := "{}";
                  DIFY_TYPE := m;
                  RESPONSE_MODE := Some "streaming";
                  VERIFY_SSL := Some false |};
     name := "My Dify Pipeline Local";
     headers := None; data_schema := 1%nat; debug := false |}.

(** The request the default pipeline sends for the message ["hello"]. *)
Definition hello_request : request :=
  {| url := "http://host.docker.internal/v1/workflows/run";
     req_headers := [("Authorization", "Bearer YOUR_DIFY_API_KEY");
                     ("Content-Type", "application/json")];
     body_json := JObject [("inputs", JObject [("input", JStr "hello")]);
                           ("response_mode", JStr "streaming");
                           ("user", JStr "user@example.com")];
     verify := Some false;
     stream := true |}.

(** A stream line whose payload contains the marker once more. *)
Definition chunk_with_marker : string :=
  PyStr.jq "data: {'event':'text_chunk','data':{'text':'see data: here'}}".

(** A server that is down, and servers that answer every request alike. *)
Definition unreachable (msg : string) : request → reply := λ _, Refused msg.

Definition answering (r : response) : request → reply := λ _, Answered r.

(** The default pipeline with [RESPONSE_MODE] set to ["blocking"], and the
    request it sends for the message ["hello"]. *)
Definition blocking_pipeline : Pipeline :=
  {| valves := {| APP_NAME := "My Dify Pipeline Local";
                  HOST_URL := "http://host.docker.internal";
                  DIFY_API_KEY := "YOUR_DIFY_API_KEY";
                  USER_INPUT_KEY := "input";
                  USER_INPUTS := "{}";
                  DIFY_TYPE := "workflow";
                  RESPONSE_MODE := Some "blocking";
                  VERIFY_SSL := Some false |};
     name := "My Dify Pipeline Local";
     headers := None; data_schema := 1%nat; debug := false |}.

Definition blocking_heap : heap :=
  <[1%nat := [("inputs", VRef 0%nat);
              ("response_mode", VJson (JStr "blocking"));
              ("user", VJson (JStr EmptyString))]]> (<[0%nat := []]> ∅).


(** [e] is not a [RequestException]. *)
Definition other_than_request_exception (e : exn) : Prop :=
  ∀ msg, e ≠ RequestException msg.

(** A computation that never raises a [RequestException]. *)
Definition quiet {A} (m : M A) : Prop :=
  ∀ (h h' : heap) e, m h = (Raise e, h') → other_than_request_exception e.

(** The fragment for a status other than 200 (line 257), if any. *)
Definition status_fragment (r : response) : list json :=
  if status_code r =? 200 then []
  else [JStr ("API request failed with status code "
              +:+ PyStr.str_of_int (status_code r) +:+ ": " +:+ text r)].

(** A call of [pipe] as its caller makes it, together with the server that
    answers it; [after_calls] is the state a sequence of calls, each run to
    its end, leaves behind. *)
Record call : Type := {
  call_post : request → reply;
  call_message : string;
  call_model : string;
  call_messages : list json;
  call_body : json;
}.

Definition pipe_call (c : call) (self : Pipeline) (h : heap) : outcome :=
  pipe (call_post c) self (call_message c) (call_model c) (call_messages c)
    (call_body c) h.

Fixpoint after_calls (cs : list call) (self : Pipeline) (h : heap)
  : Pipeline * heap :=
  match cs with
  | [] => (self, h)
  | c :: cs' =>
      after_calls cs' (self_after (pipe_call c self h))
        (heap_after (pipe_call c self h))
  end.

(** One call of the default pipeline while the server is down, a second
    pipeline built after the default one in the same store, and a response
    whose second line is not UTF-8. *)
Definition hello_call : call :=
  {| call_post := unreachable "down"; call_message := "hello";
     call_model := "model"; call_messages := []; call_body := caller |}.

Definition second_pipeline : Pipeline :=
  {| valves := default_valves; name := "My Dify Pipeline Local";
     headers := None; data_schema := 3%nat; debug := false |}.

Definition second_heap : heap :=
  <[3%nat := [("inputs", VRef 2%nat);
              ("response_mode", VJson (JStr "streaming"));
              ("user", VJson (JStr EmptyString))]]> (<[2%nat := []]> default_heap).

Definition garbled_response : response :=
  {| status_code := 200; text := EmptyString;
     lines := [chunk_A; String "255"%char EmptyString; finished_DONE];
     ending := Exhausted |}.


Definition broken_response : response :=
  {| status_code := 500; text := "Internal Server Error";
     lines := [chunk_A; "data: {not json"]; ending := Broken "reset" |}.

(** * Properties *)

(** ** Dictionaries *)

Section DictFacts.
Context {V : Type}.
Implicit Types (d o : pydict V) (k : string) (v : V).

Lemma dict_get_set_eq d k v : dict_get (dict_set d k v) k = Some v.
Proof.
  induction d as [|[k' v'] d IH]; simpl.
  - by rewrite String.eqb_refl.
  - destruct (String.eqb_spec k' k) as [->|Hne]; simpl.
    + by rewrite String.eqb_refl.
    + by rewrite (proj2 (String.eqb_neq _ _) Hne).
Qed.

Lemma dict_get_set_ne d k k' v :
  k ≠ k' → dict_get (dict_set d k v) k' = dict_get d k'.
Proof.
  intros Hk. induction d as [|[k0 v0] d IH]; simpl.
  - by rewrite (proj2 (String.eqb_neq _ _) Hk).
  - destruct (String.eqb_spec k0 k) as [->|Hne]; simpl.
    + by rewrite (proj2 (String.eqb_neq _ _) Hk).
    + by rewrite IH.
Qed.

Lemma dict_get_None d k : dict_get d k = None ↔ k ∉ d.*1.
Proof.
  induction d as [|[k' v'] d IH]; simpl.
  - split; [intros _; apply not_elem_of_nil | done].
  - rewrite not_elem_of_cons. destruct (String.eqb_spec k' k) as [->|Hne].
    + split; [done | by intros [? _]].
    + rewrite IH. split; [intros ?; split; [congruence | done] | by intros [_ ?]].
Qed.

Lemma dict_set_keys_nodup d k v : NoDup d.*1 → NoDup (dict_set d k v).*1.
Proof.
  induction d as [|[k' v'] d IH]; simpl; intros Hd.
  - apply NoDup_singleton.
  - apply NoDup_cons in Hd as [Hk' Hd]. simpl in Hk'.
    destruct (String.eqb_spec k' k) as [->|Hne]; simpl.
    + by apply NoDup_cons.
    + apply NoDup_cons. split; [|by apply IH].
      apply dict_get_None. rewrite dict_get_set_ne by done.
      by apply dict_get_None.
Qed.

(** After [d.update(o)] a key of [o] has the value [o] gives it, any other
    key the value it had. *)
Lemma dict_get_update d o k :
  NoDup o.*1 →
  dict_get (dict_update d o) k =
  match dict_get o k with
  | Some v => Some v
  | None => dict_get d k
  end.
Proof.
  unfold dict_update. revert d.
  induction o as [|[k1 v1] o IH]; intros d Ho; simpl; [done|].
  apply NoDup_cons in Ho as [Hk1 Ho]. simpl in Hk1. rewrite IH by done.
  destruct (String.eqb_spec k1 k) as [->|Hne].
  - rewrite (proj2 (dict_get_None o k) Hk1). apply dict_get_set_eq.
  - destruct (dict_get o k); [done|]. by apply dict_get_set_ne.
Qed.

End DictFacts.

Lemma dict_get_fmap {V W} (f : V → W) (d : pydict V) k :
  dict_get (prod_map id f <$> d) k = f <$> dict_get d k.
Proof.
  induction d as [|[k' v'] d IH]; simpl; [done|].
  by destruct (k' =? k)%string.
Qed.

Lemma fmap_keys {V W} (f : V → W) (d : pydict V) :
  (prod_map id f <$> d).*1 = d.*1.
Proof. induction d as [|[k v] d IH]; [done | cbn; f_equal; exact IH]. Qed.

(** ** Strings *)

Lemma startswith_app p rest : PyStr.startswith (p +:+ rest) p = true.
Proof.
  induction p as [|c p IH]; simpl; [by destruct rest|].
  by rewrite Ascii.eqb_refl.
Qed.

Lemma replace_from_skip old new a s :
  PyStr.replace_from old new (String.length a) (a +:+ s)
  = PyStr.replace_from old new 0 s.
Proof. induction a as [|c a IH]; [done | exact IH]. Qed.

Lemma replace_from_absent old new s :
  PyStr.contains s old = false → PyStr.replace_from old new 0 s = s.
Proof.
  induction s as [|c s IH]; [done|].
  cbn [PyStr.contains PyStr.replace_from]. intros [Hs Hc]%orb_false_elim.
  by rewrite Hs, IH.
Qed.

(** When the marker occurs only at the start of the line, [replace] does
    strip just that prefix. *)
Lemma replace_strips_prefix c old rest :
  PyStr.contains rest (String c old) = false →
  PyStr.replace (String c old +:+ rest) (String c old) EmptyString = rest.
Proof.
  intros Hrest. unfold PyStr.replace.
  change (String c old +:+ rest) with (String c (old +:+ rest)).
  cbn [PyStr.replace_from].
  change (String c (old +:+ rest)) with (String c old +:+ rest).
  rewrite startswith_app. cbn [String.length Nat.pred].
  rewrite replace_from_skip. by rewrite replace_from_absent.
Qed.

(** ** The decoder *)

Lemma parse_members_object fuel s acc v rest :
  NoDup acc.*1 → Json.parse_members fuel s acc = Json.Parsed v rest →
  ∃ o, v = JObject o ∧ NoDup o.*1.
Proof.
  revert s acc. induction fuel as [|fuel IH]; intros s acc Hacc; [done|].
  simpl. intros Hp. repeat case_match; simplify_eq.
  - eexists. split; [done|]. by apply dict_set_keys_nodup.
  - eapply IH; [|done]. by apply dict_set_keys_nodup.
Qed.

Lemma parse_elems_list fuel s acc v rest :
  Json.parse_elems fuel s acc = Json.Parsed v rest → ∃ l, v = JList l.
Proof.
  revert s acc. induction fuel as [|fuel IH]; intros s acc; [done|].
  simpl. intros Hp. repeat case_match; simplify_eq; eauto.
Qed.

Lemma scan_number_object s o rest : Json.scan_number s ≠ Some (JObject o, rest).
Proof.
  unfold Json.scan_number. intros Hn.
  repeat (case_match; simplify_option_eq); simplify_eq.
Qed.

(** The keys of a decoded object are pairwise distinct. *)
Lemma loads_object_nodup s o : Json.loads s = Ok (JObject o) → NoDup o.*1.
Proof.
  unfold Json.loads.
  destruct (Json.parse_value _ _) as [v rest| |] eqn:Hv; [|done..].
  destruct (Json.skip_ws rest); [|done]. intros [= ->].
  destruct (2 * String.length s + 2)%nat as [|fuel]; [done|].
  simpl in Hv. unfold Json.keyword, Json.of_option in Hv.
  repeat case_match; simplify_eq; try apply NoDup_nil_2.
  - by apply parse_members_object in Hv as (o' & [= ->] & ?); [|apply NoDup_nil_2].
  - by apply parse_elems_list in Hv as (l & ?).
  - exfalso. by eapply scan_number_object.
Qed.

(** The decoder never runs out of fuel: every step of [parse_value],
    [parse_members] and [parse_elems] is paid for by the characters left. *)

Lemma skip_ws_length s : (String.length (Json.skip_ws s) ≤ String.length s)%nat.
Proof.
  induction s as [|c s IH]; simpl; [done|]. destruct (Json.is_ws c); simpl; lia.
Qed.

Lemma eat_length c s r :
  Json.eat c s = Some r → String.length s = S (String.length r).
Proof.
  unfold Json.eat. destruct s as [|c' s]; [done|].
  destruct (c' =? c)%char; [|done]. by intros [= ->].
Qed.

Lemma drop_length n s : (String.length (PyStr.drop n s) ≤ String.length s)%nat.
Proof.
  revert s. induction n as [|n IH]; intros [|c s]; simpl; try lia.
  specialize (IH s). lia.
Qed.

Lemma span_digits_length s ds r :
  Json.span_digits s = (ds, r) → (String.length r ≤ String.length s)%nat.
Proof.
  revert ds r. induction s as [|c s IH]; simpl; intros ds r.
  - intros [= <- <-]. done.
  - destruct (Json.is_digit c).
    + destruct (Json.span_digits s) as [ds' r'] eqn:Hs. intros [= <- <-].
      specialize (IH _ _ eq_refl). lia.
    + intros [= <- <-]. simpl. lia.
Qed.

Lemma split_literal_length b s body rest :
  Json.split_literal b s = Some (body, rest) →
  (String.length rest ≤ String.length s)%nat.
Proof.
  revert b body. induction s as [|c s IH]; intros b body; simpl; [done|].
  assert (∀ b',
            (Json.split_literal b' s
             ≫= λ '(body', rest'), Some (String c body', rest'))
            = Some (body, rest) →
            (String.length rest ≤ S (String.length s))%nat) as Hrec.
  { intros b' Hb.
    destruct (Json.split_literal b' s) as [[body' rest']|] eqn:Hs; [|done].
    simpl in Hb. injection Hb as <- <-. apply IH in Hs. lia. }
  intros Hs. repeat case_match; eauto; simplify_eq; lia.
Qed.

Lemma scan_string_length s text rest :
  Json.scan_string s = Some (text, rest) →
  (String.length rest ≤ String.length s)%nat.
Proof.
  unfold Json.scan_string. intros Hs.
  destruct (Json.split_literal false s) as [[body rest']|] eqn:Hsplit; [|done].
  simpl in Hs. destruct (Json.unescape 0 body); [|done].
  injection Hs as <- <-. by eapply split_literal_length.
Qed.

Lemma scan_number_length s v rest :
  Json.scan_number s = Some (v, rest) →
  (String.length rest ≤ String.length s)%nat.
Proof.
  unfold Json.scan_number. intros Hs.
  repeat (case_match; simplify_option_eq);
    repeat match goal with
           | H : Json.eat _ _ = Some _ |- _ => apply eat_length in H
           | H : Json.span_digits _ = _ |- _ => apply span_digits_length in H
           end; simpl in *; lia.
Qed.

Lemma keyword_length w v s v' rest :
  Json.keyword w v s = Json.Parsed v' rest →
  (String.length rest ≤ String.length s)%nat.
Proof.
  unfold Json.keyword. destruct (PyStr.startswith s w); [|done].
  intros [= <- <-]. apply drop_length.
Qed.

Ltac length_facts :=
  repeat match goal with
         | H : Json.eat _ _ = Some _ |- _ => apply eat_length in H
         | H : Json.scan_string _ = Some _ |- _ => apply scan_string_length in H
         | H : Json.scan_number _ = Some _ |- _ => apply scan_number_length in H
         | H : Json.keyword _ _ _ = Json.Parsed _ _ |- _ =>
             apply keyword_length in H
         end;
  repeat match goal with
         | |- context [Json.skip_ws ?s] =>
             lazymatch goal with
             | _ : (String.length (Json.skip_ws s) ≤ String.length s)%nat |- _ =>
                 fail
             | _ => pose proof (skip_ws_length s)
             end
         | _ : context [Json.skip_ws ?s] |- _ =>
             lazymatch goal with
             | _ : (String.length (Json.skip_ws s) ≤ String.length s)%nat |- _ =>
                 fail
             | _ => pose proof (skip_ws_length s)
             end
         end.

Lemma parse_fuel n :
  (∀ s, (2 * String.length s + 1 ≤ n)%nat →
        Json.parse_value n s ≠ Json.Fuel
        ∧ ∀ v r, Json.parse_value n s = Json.Parsed v r →
                 (String.length r ≤ String.length s)%nat)
  ∧ (∀ s acc, (2 * String.length s + 1 ≤ n)%nat →
              Json.parse_members n s acc ≠ Json.Fuel
              ∧ ∀ v r, Json.parse_members n s acc = Json.Parsed v r →
                       (String.length r ≤ String.length s)%nat)
  ∧ (∀ s acc, (2 * String.length s + 2 ≤ n)%nat →
              Json.parse_elems n s acc ≠ Json.Fuel
              ∧ ∀ v r, Json.parse_elems n s acc = Json.Parsed v r →
                       (String.length r ≤ String.length s)%nat).
Proof.
  induction n as [|n (IHv & IHm & IHe)].
  { split_and!; intros; lia. }
  split_and!.
  - intros s Hn. destruct s as [|c r]; [done|].
    cbn [Json.parse_value]. cbn [String.length] in Hn |- *.
    unfold Json.of_option.
    repeat case_match; length_facts;
      try (split; [done | intros ?? [= <- <-]; simpl in *; lia]).
    + destruct (IHm (Json.skip_ws r) []) as [Hf Hl]; [lia|].
      split; [done | intros v r' E; apply Hl in E; lia].
    + destruct (IHe (Json.skip_ws r) []) as [Hf Hl]; [lia|].
      split; [done | intros v r' E; apply Hl in E; lia].
    + split; [by unfold Json.keyword; case_match|].
      intros v r' E. apply keyword_length in E. simpl in E. lia.
    + split; [by unfold Json.keyword; case_match|].
      intros v r' E. apply keyword_length in E. simpl in E. lia.
    + split; [by unfold Json.keyword; case_match|].
      intros v r' E. apply keyword_length in E. simpl in E. lia.
    + split; [by unfold Json.keyword; case_match|].
      intros v r' E. apply keyword_length in E. simpl in E. lia.
    + split; [by unfold Json.keyword; case_match|].
      intros v r' E. apply keyword_length in E. simpl in E. lia.
    + split; [by unfold Json.keyword; case_match|].
      intros v r' E. apply keyword_length in E. simpl in E. lia.
  - intros s acc Hn. cbn [Json.parse_members].
    repeat case_match; length_facts;
      try (split; [done | intros ?? [= <- <-]; simpl in *; lia]);
      try done.
    + match goal with H : Json.parse_value n ?t = Json.Parsed _ ?r3 |- _ =>
        destruct (IHv t) as [_ Hl3]; [lia|]; apply Hl3 in H end.
      split; [done | intros ?? [= <- <-]; lia].
    + match goal with H : Json.parse_value n ?t = Json.Parsed _ ?r3 |- _ =>
        destruct (IHv t) as [_ Hl3]; [lia|]; apply Hl3 in H end.
      match goal with |- context [Json.parse_members n ?t ?a] =>
        destruct (IHm t a) as [Hf Hl]; [lia|] end.
      split; [done | intros v' r' E; apply Hl in E; lia].
    + match goal with H : Json.parse_value n ?t = Json.Fuel |- _ =>
        destruct (IHv t) as [Hf _]; [lia | done] end.
  - intros s acc Hn. cbn [Json.parse_elems].
    repeat case_match; length_facts;
      try (split; [done | intros ?? [= <- <-]; simpl in *; lia]);
      try done.
    + match goal with H : Json.parse_value n ?t = Json.Parsed _ ?r3 |- _ =>
        destruct (IHv t) as [_ Hl3]; [lia|]; apply Hl3 in H end.
      split; [done | intros ?? [= <- <-]; lia].
    + match goal with H : Json.parse_value n ?t = Json.Parsed _ ?r3 |- _ =>
        destruct (IHv t) as [_ Hl3]; [lia|]; apply Hl3 in H end.
      match goal with |- context [Json.parse_elems n ?t ?a] =>
        destruct (IHe t a) as [Hf Hl]; [lia|] end.
      split; [done | intros v' r' E; apply Hl in E; lia].
    + match goal with H : Json.parse_value n ?t = Json.Fuel |- _ =>
        destruct (IHv t) as [Hf _]; [lia | done] end.
Qed.

(** [json.loads] is total in the model: it returns a value or raises
    [JSONDecodeError]. *)
Lemma loads_total s :
  (∃ v, Json.loads s = Ok v) ∨ Json.loads s = Raise JSONDecodeError.
Proof.
  unfold Json.loads.
  destruct (parse_fuel (2 * String.length s + 2)) as [Hv _].
  destruct (Hv (Json.skip_ws s)) as [Hf _].
  { pose proof (skip_ws_length s). lia. }
  destruct (Json.parse_value _ _) as [v rest| |]; [|by right|done].
  destruct (Json.skip_ws rest); [left; eauto | by right].
Qed.

(** ** The store *)

Lemma bind_Ok {A B} (m : M A) (k : A → M B) h a h' :
  m h = (Ok a, h') → (m ≫= k) h = k a h'.
Proof. unfold mbind, M_bind. by intros ->. Qed.

Lemma bind_Raise {A B} (m : M A) (k : A → M B) h e h' :
  m h = (Raise e, h') → (m ≫= k) h = (Raise e, h').
Proof. unfold mbind, M_bind. by intros ->. Qed.

Lemma fresh_lookup (h : heap) : h !! fresh (dom h) = None.
Proof. apply not_elem_of_dom, is_fresh. Qed.

Lemma copy_eq (h : heap) l d :
  h !! l = Some d →
  Py.copy l h = (Ok (fresh (dom h)), <[fresh (dom h) := d]> h).
Proof.
  intros Hl. unfold Py.copy. erewrite bind_Ok; [done|].
  unfold Py.load. by rewrite Hl.
Qed.

Lemma getitem_ref (h : heap) l d k x :
  h !! l = Some d → dict_get d k = Some x →
  Py.getitem (VRef l) k h = (Ok x, h).
Proof.
  intros Hl Hk. unfold Py.getitem. erewrite bind_Ok.
  - by rewrite Hk.
  - unfold Py.load. by rewrite Hl.
Qed.

Lemma setitem_ref (h : heap) l d k x :
  h !! l = Some d →
  Py.setitem (VRef l) k x h = (Ok (), <[l := dict_set d k x]> h).
Proof.
  intros Hl. unfold Py.setitem. erewrite bind_Ok; [done|].
  unfold Py.load. by rewrite Hl.
Qed.

Lemma update_ref (h : heap) l d o :
  h !! l = Some d →
  Py.update (VRef l) (JObject o) h
  = (Ok (), <[l := dict_update d (prod_map id VJson <$> o)]> h).
Proof.
  intros Hl. unfold Py.update. erewrite bind_Ok; [done|].
  unfold Py.load. by rewrite Hl.
Qed.

(** ** Snapshots *)

Lemma collect_flat fuel (h : heap) (ins : pydict pyval) :
  forallb (λ kv, is_json kv.2) ins = true →
  Py.collect ((λ kv, (kv.1, Py.snapshot_at fuel h kv.2)) <$> ins)
  = Ok (prod_map id unwrap <$> ins).
Proof.
  induction ins as [|[k [j|l]] ins IH]; intros Hf; try done.
  rewrite fmap_cons. cbn [Py.collect fst snd]. rewrite (IH Hf).
  by destruct fuel.
Qed.

Lemma snapshot_at_ref fuel (h : heap) l :
  Py.snapshot_at (S fuel) h (VRef l)
  = match h !! l with
    | None => Raise Unmodelled
    | Some d =>
        JObject <$> Py.collect ((λ kv, (kv.1, Py.snapshot_at fuel h kv.2)) <$> d)
    end.
Proof. done. Qed.

Lemma snapshot_render fuel (h : heap) ld li d ins :
  h !! ld = Some d → h !! li = Some ins →
  forallb (λ kv, is_json kv.2 || refers_to li kv.2) d = true →
  forallb (λ kv, is_json kv.2) ins = true →
  Py.snapshot_at (S (S fuel)) h (VRef ld) = Ok (JObject (render ins d)).
Proof.
  intros Hd Hi Hsh Hfl. rewrite snapshot_at_ref, Hd.
  assert (Py.collect ((λ kv, (kv.1, Py.snapshot_at (S fuel) h kv.2)) <$> d)
          = Ok (render ins d)) as ->; [|done].
  clear Hd. induction d as [|[k x] d IH]; [done|].
  simpl in Hsh. apply andb_prop in Hsh as [Hx Hsh].
  rewrite fmap_cons. cbn [Py.collect fst snd]. rewrite (IH Hsh).
  destruct x as [j|l]; [done|].
  simpl in Hx. apply Nat.eqb_eq in Hx as ->.
  rewrite snapshot_at_ref, Hi, (collect_flat _ _ _ Hfl). done.
Qed.

(** ** Well-formed states and the steps of [prepare] *)

Lemma well_formed_inv self (h : heap) :
  well_formed self h = true →
  ∃ schema li inputs,
    h !! data_schema self = Some schema
    ∧ dict_get schema "inputs" = Some (VRef li)
    ∧ li ≠ data_schema self
    ∧ forallb (λ kv, is_json kv.2 || refers_to li kv.2) schema = true
    ∧ h !! li = Some inputs
    ∧ forallb (λ kv, is_json kv.2) inputs = true.
Proof.
  unfold well_formed. intros Hwf.
  destruct (h !! data_schema self) as [schema|]; [|done].
  destruct (dict_get schema "inputs") as [[j|li]|] eqn:Hin; try done.
  apply andb_prop in Hwf as [Hwf Hins]. apply andb_prop in Hwf as [Hne Hsh].
  destruct (h !! li) as [inputs|] eqn:Hli; [|done].
  exists schema, li, inputs.
  assert (li ≠ data_schema self) by (intros ->; by rewrite Nat.eqb_refl in Hne).
  by split_and!.
Qed.

Lemma forallb_dict_set (P : pyval → bool) (d : pydict pyval) k x :
  forallb (λ kv, P kv.2) d = true → P x = true →
  forallb (λ kv, P kv.2) (dict_set d k x) = true.
Proof.
  intros Hd Hx. induction d as [|[k' x'] d IH]; simpl in *.
  - by rewrite Hx.
  - apply andb_prop in Hd as [Hx' Hd].
    destruct (k' =? k)%string; simpl; [by rewrite Hx, Hd|].
    by rewrite Hx', IH.
Qed.

Lemma forallb_dict_update (P : pyval → bool) (d o : pydict pyval) :
  forallb (λ kv, P kv.2) d = true → forallb (λ kv, P kv.2) o = true →
  forallb (λ kv, P kv.2) (dict_update d o) = true.
Proof.
  unfold dict_update. revert d.
  induction o as [|[k x] o IH]; intros d Hd Ho; simpl in *; [done|].
  apply andb_prop in Ho as [Hx Ho]. apply IH; [|done].
  by apply forallb_dict_set.
Qed.

Lemma forallb_is_json_fmap (o : list (string * json)) :
  forallb (λ kv, is_json kv.2) (prod_map id VJson <$> o) = true.
Proof. induction o as [|[k j] o IH]; [done | exact IH]. Qed.

Lemma placed_schema_inputs v msg (d : pydict pyval) :
  dict_get (placed_schema v msg d) "inputs" = dict_get d "inputs".
Proof.
  unfold placed_schema.
  destruct (DIFY_TYPE v =? "workflow")%string; [done|].
  destruct ((DIFY_TYPE v =? "agent")%string || (DIFY_TYPE v =? "chat")%string);
    [|done].
  by apply dict_get_set_ne.
Qed.

Lemma placed_schema_shape v msg li (d : pydict pyval) :
  forallb (λ kv, is_json kv.2 || refers_to li kv.2) d = true →
  forallb (λ kv, is_json kv.2 || refers_to li kv.2) (placed_schema v msg d) = true.
Proof.
  intros Hd. unfold placed_schema.
  destruct (DIFY_TYPE v =? "workflow")%string; [done|].
  destruct ((DIFY_TYPE v =? "agent")%string || (DIFY_TYPE v =? "chat")%string);
    [|done].
  by apply (forallb_dict_set (λ x, is_json x || refers_to li x)).
Qed.

Lemma placed_inputs_flat v msg (ins : pydict pyval) :
  forallb (λ kv, is_json kv.2) ins = true →
  forallb (λ kv, is_json kv.2) (placed_inputs v msg ins) = true.
Proof.
  intros Hd. unfold placed_inputs.
  repeat match goal with
         | |- context [if ?b then _ else _] => destruct b
         end; try done; by apply (forallb_dict_set is_json).
Qed.

Lemma place_message_eq v msg (h : heap) ld li d ins :
  h !! ld = Some d → dict_get d "inputs" = Some (VRef li) →
  h !! li = Some ins → ld ≠ li →
  place_message v ld msg h
  = (Ok (), <[li := placed_inputs v msg ins]> (<[ld := placed_schema v msg d]> h)).
Proof.
  intros Hd Hin Hi Hne. unfold place_message, placed_inputs, placed_schema.
  destruct (DIFY_TYPE v =? "workflow")%string.
  { erewrite bind_Ok by by eapply getitem_ref.
    erewrite setitem_ref by done. by rewrite (insert_id h ld d). }
  destruct ((DIFY_TYPE v =? "agent")%string || (DIFY_TYPE v =? "chat")%string).
  { erewrite setitem_ref by done.
    rewrite (insert_id _ li ins); [done|]. by rewrite lookup_insert_ne. }
  destruct (DIFY_TYPE v =? "completion")%string.
  { erewrite bind_Ok by by eapply getitem_ref.
    erewrite setitem_ref by done. by rewrite (insert_id h ld d). }
  rewrite (insert_id h ld d) by done. by rewrite (insert_id h li ins).
Qed.

Lemma merge_inputs_eq v (h : heap) ld li d ins :
  h !! ld = Some d → dict_get d "inputs" = Some (VRef li) →
  h !! li = Some ins →
  merge_inputs v ld h
  = match extra_inputs v with
    | Ok o => (Ok (), <[li := dict_update ins (prod_map id VJson <$> o)]> h)
    | Raise e => (Raise e, h)
    end.
Proof.
  intros Hd Hin Hi. unfold merge_inputs, extra_inputs.
  destruct (USER_INPUTS v) as [|c s] eqn:Hu.
  { by rewrite (insert_id h li ins). }
  destruct (Json.loads (String c s)) as [j|e] eqn:Hj; [|done].
  erewrite bind_Ok by done. erewrite bind_Ok by by eapply getitem_ref.
  unfold mbind at 1, result_bind at 1. unfold Py.update.
  erewrite bind_Ok by (unfold Py.load; by rewrite Hi).
  destruct j as [| | | |[|]|[|]|]; try done;
    by rewrite (insert_id h li ins).
Qed.

(** [prepare] on a well-formed state, in closed form: the copy [ld] is a new
    dictionary, the message and the extra inputs go into the dictionary [li]
    that the template and the copy share. *)
Lemma prepare_eq self msg body (h : heap) schema li inputs :
  h !! data_schema self = Some schema →
  dict_get schema "inputs" = Some (VRef li) →
  li ≠ data_schema self →
  forallb (λ kv, is_json kv.2 || refers_to li kv.2) schema = true →
  h !! li = Some inputs →
  forallb (λ kv, is_json kv.2) inputs = true →
  let v := valves self in
  let ld := fresh (dom h) in
  let ps := placed_schema v msg schema in
  let pi := placed_inputs v msg inputs in
  prepare self msg body h
  = match caller_email body with
    | Raise e => (Raise e, <[li := pi]> (<[ld := ps]> h))
    | Ok email =>
        let d := dict_set ps "user" (VJson email) in
        match extra_inputs v with
        | Raise e => (Raise e, <[li := pi]> (<[ld := d]> h))
        | Ok o =>
            let fi := dict_update pi (prod_map id VJson <$> o) in
            let h' := <[li := fi]> (<[ld := d]> h) in
            match create_api_url self with
            | Raise e => (Raise e, h')
            | Ok target =>
                (Ok {| url := target;
                       req_headers := default [] (headers self);
                       body_json := JObject (render fi d);
                       verify := VERIFY_SSL v;
                       stream := is_str (RESPONSE_MODE v) "streaming" |}, h')
            end
        end
    end.
Proof.
  intros Hs Hin Hne Hsh Hi Hfl v.
  pose proof (fresh_lookup h) as Hld.
  assert (fresh (dom h) ≠ li) as Hldi by (intros Heq; by rewrite Heq, Hi in Hld).
  assert (fresh (dom h) ≠ data_schema self) as Hlds
    by (intros Heq; by rewrite Heq, Hs in Hld).
  intros ld ps pi.
  unfold prepare. fold v.
  erewrite bind_Ok by by apply copy_eq. fold ld.
  erewrite bind_Ok; cycle 1.
  { eapply place_message_eq; [apply lookup_insert_eq|done| |done].
    by rewrite lookup_insert_ne. }
  rewrite insert_insert_eq. fold ps pi.
  destruct (caller_email body) as [email|e]; [|done].
  erewrite bind_Ok by done.
  erewrite bind_Ok; cycle 1.
  { eapply setitem_ref. rewrite lookup_insert_ne by done. apply lookup_insert_eq. }
  rewrite (insert_insert_ne _ li ld), insert_insert_eq by done.
  rewrite <-(insert_insert_ne _ li ld) by done.
  set (d := dict_set ps "user" (VJson email)).
  unfold mbind at 1, M_bind at 1.
  rewrite (merge_inputs_eq v _ ld li d pi); cycle 1.
  { rewrite lookup_insert_ne by done. apply lookup_insert_eq. }
  { unfold d. rewrite dict_get_set_ne by done. unfold ps.
    by rewrite placed_schema_inputs. }
  { apply lookup_insert_eq. }
  destruct (extra_inputs v) as [o|e]; [|done].
  rewrite insert_insert_eq. set (fi := dict_update pi _).
  destruct (create_api_url self) as [target|e]; [|done].
  erewrite bind_Ok by done.
  set (h' := <[li := fi]> (<[ld := d]> h)).
  assert (Py.snapshot (VRef ld) h' = (Ok (JObject (render fi d)), h')) as Hsnap.
  { unfold Py.snapshot. f_equal.
    destruct (size h') as [|n] eqn:Hsize.
    { apply map_size_empty_inv in Hsize. unfold h' in Hsize.
      by apply insert_non_empty in Hsize. }
    apply (snapshot_render n h' ld li d fi).
    - unfold h'. rewrite lookup_insert_ne by done. apply lookup_insert_eq.
    - apply lookup_insert_eq.
    - unfold d. apply (forallb_dict_set (λ x, is_json x || refers_to li x)); [|done].
      by apply placed_schema_shape.
    - unfold fi. apply (forallb_dict_update is_json).
      + by apply placed_inputs_flat.
      + apply forallb_is_json_fmap. }
  by erewrite bind_Ok by exact Hsnap.
Qed.

Lemma dict_get_render (ins d : pydict pyval) k :
  dict_get (render ins d) k
  = (λ x, match x with
          | VJson j => j
          | VRef _ => JObject (prod_map id unwrap <$> ins)
          end) <$> dict_get d k.
Proof. apply dict_get_fmap. Qed.

Lemma subscript_raise j k e :
  subscript j k = Raise e → e = KeyError k ∨ e = TypeError.
Proof.
  destruct j as [| | | | | |o]; simpl; try (intros [= <-]; by right).
  destruct (dict_get o k); [done|]. intros [= <-]. by left.
Qed.

Lemma caller_email_raise body e :
  caller_email body = Raise e →
  e = KeyError "user" ∨ e = KeyError "email" ∨ e = TypeError.
Proof.
  unfold caller_email. destruct (subscript body "user") as [u|e'] eqn:Hu; simpl.
  - intros [->| ->]%subscript_raise; auto.
  - intros [= <-]. apply subscript_raise in Hu as [->| ->]; auto.
Qed.

(** ** The request *)

(** C8.  On a well-formed state, for every mode and message: when reading
    [body["user"]["email"]] raises (a [KeyError] for a missing ["user"] or
    ["email"] key, a [TypeError] when one of the two is not a dictionary),
    [pipe] raises that same exception to its caller, yields nothing and sends
    no request; when the e-mail is there, a request that is sent carries it
    as its ["user"] field. *)
Theorem C8_caller_identity post self msg model msgs body (h : heap) :
  well_formed self h = true →
  let run := pipe post self msg model msgs body h in
  (∀ e, caller_email body = Raise e →
        sent run = None ∧ output run = throw e
        ∧ (e = KeyError "user" ∨ e = KeyError "email" ∨ e = TypeError))
  ∧ (∀ o, body = JObject o → dict_get o "user" = None →
          sent run = None ∧ output run = throw (KeyError "user"))
  ∧ (∀ o u, body = JObject o → dict_get o "user" = Some (JObject u) →
            dict_get u "email" = None →
            sent run = None ∧ output run = throw (KeyError "email"))
  ∧ (∀ email req, caller_email body = Ok email → sent run = Some req →
                  subscript (body_json req) "user" = Ok email).
Proof.
  intros Hwf run.
  apply well_formed_inv in Hwf as (schema & li & inputs & Hs & Hin & Hne & Hsh & Hi & Hfl).
  pose proof (prepare_eq (set_headers self) msg body h schema li inputs
                Hs Hin Hne Hsh Hi Hfl) as Hp.
  cbv zeta in Hp.
  assert (∀ e, caller_email body = Raise e →
               sent run = None ∧ output run = throw e) as Hraise.
  { intros e He. unfold run, pipe. rewrite Hp, He. simpl. split; [done|].
    by destruct (caller_email_raise _ _ He) as [->|[->| ->]]. }
  split_and!.
  - intros e He. destruct (Hraise e He) as [? ?]. split_and!; [done..|].
    by eapply caller_email_raise.
  - intros o -> Ho. apply Hraise. unfold caller_email. simpl. by rewrite Ho.
  - intros o u -> Ho Hu. apply Hraise. unfold caller_email. simpl.
    rewrite Ho. simpl. by rewrite Hu.
  - intros email req He. unfold run, pipe. rewrite Hp, He.
    destruct (extra_inputs _) as [o|e]; [|done].
    destruct (create_api_url _) as [target|e]; [|done].
    simpl. intros [= <-]. simpl.
    by rewrite dict_get_render, dict_get_set_eq.
Qed.

Lemma extra_inputs_object v o :
  Json.loads (USER_INPUTS v) = Ok (JObject o) → extra_inputs v = Ok o.
Proof.
  unfold extra_inputs. destruct (USER_INPUTS v); [done|]. by intros ->.
Qed.

Lemma extra_inputs_inv v o :
  extra_inputs v = Ok o →
  NoDup o.*1 ∧ (o = [] ∨ Json.loads (USER_INPUTS v) = Ok (JObject o)).
Proof.
  unfold extra_inputs. destruct (USER_INPUTS v) as [|c s].
  { intros [= <-]. split; [apply NoDup_nil_2 | by left]. }
  destruct (Json.loads (String c s)) as [j|e] eqn:Hj; [|done]. simpl.
  destruct j as [| | | |[|]|[|]|o']; intros [= <-];
    try (split; [apply NoDup_nil_2 | by left]).
  split; [by eapply loads_object_nodup | by right].
Qed.

(** What a sent body has under [inputs]. *)
Lemma path_inputs (fi d : pydict pyval) li k :
  dict_get d "inputs" = Some (VRef li) →
  path (JObject (render fi d)) ["inputs"; k]
  = match dict_get fi k with
    | Some x => Ok (unwrap x)
    | None => Raise (KeyError k)
    end.
Proof.
  intros Hd. unfold path. simpl. rewrite dict_get_render, Hd. simpl.
  rewrite dict_get_fmap. by destruct (dict_get fi k).
Qed.

Lemma dict_get_merged (pi : pydict pyval) (o : list (string * json)) k :
  NoDup o.*1 →
  dict_get (dict_update pi (prod_map id VJson <$> o)) k
  = match dict_get o k with
    | Some x => Some (VJson x)
    | None => dict_get pi k
    end.
Proof.
  intros Ho. rewrite dict_get_update by by rewrite fmap_keys.
  rewrite dict_get_fmap. by destruct (dict_get o k).
Qed.

(** C3.  On a well-formed state, with the caller's e-mail present and a valid
    mode: when the configured extra inputs decode to an object, the request
    is sent and every key of that object has, under [inputs] of the sent
    body, the value the extra inputs give it, whatever the user message put
    there.  (With the defaults, mode workflow and input key ["input"],
    message ["hello"] and extra inputs [{"input": "override"}], the sent
    [inputs["input"]] is ["override"]; the instance is proved at the end.) *)
Theorem C3_extra_inputs_win post self msg model msgs body (h : heap)
    email target o k x :
  well_formed self h = true →
  caller_email body = Ok email →
  create_api_url self = Ok target →
  Json.loads (USER_INPUTS (valves self)) = Ok (JObject o) →
  dict_get o k = Some x →
  ∃ req, sent (pipe post self msg model msgs body h) = Some req
         ∧ path (body_json req) ["inputs"; k] = Ok x.
Proof.
  intros Hwf He Hurl Ho Hk.
  apply well_formed_inv in Hwf as (schema & li & inputs & Hs & Hin & Hne & Hsh & Hi & Hfl).
  pose proof (prepare_eq (set_headers self) msg body h schema li inputs
                Hs Hin Hne Hsh Hi Hfl) as Hp.
  cbv zeta in Hp. unfold pipe. rewrite Hp, He. simpl valves.
  rewrite (extra_inputs_object _ _ Ho).
  change (create_api_url (set_headers self)) with (create_api_url self).
  rewrite Hurl. eexists. split; [done|]. simpl body_json.
  erewrite path_inputs; cycle 1.
  { rewrite dict_get_set_ne by done. by rewrite placed_schema_inputs. }
  rewrite dict_get_merged by by eapply loads_object_nodup.
  by rewrite Hk.
Qed.

(** What lines 233-238 store, on the copy [ld] of the template and the
    [inputs] dictionary [li] it refers to. *)
Lemma place_message_stores v msg (h : heap) ld li d ins :
  h !! ld = Some d → dict_get d "inputs" = Some (VRef li) →
  h !! li = Some ins → ld ≠ li →
  ∃ h' d' ins',
    place_message v ld msg h = (Ok (), h')
    ∧ h' !! ld = Some d' ∧ h' !! li = Some ins'
    ∧ (DIFY_TYPE v = "workflow" →
       dict_get ins' (USER_INPUT_KEY v) = Some (VJson (JStr msg)))
    ∧ (DIFY_TYPE v = "agent" ∨ DIFY_TYPE v = "chat" →
       dict_get d' "query" = Some (VJson (JStr msg)))
    ∧ (DIFY_TYPE v = "completion" →
       dict_get ins' "query" = Some (VJson (JStr msg))).
Proof.
  intros Hd Hin Hi Hne. eexists _, _, _. split; [by eapply place_message_eq|].
  split; [by rewrite lookup_insert_ne, lookup_insert_eq|].
  split; [by rewrite lookup_insert_eq|].
  unfold placed_inputs, placed_schema.
  split_and!.
  - intros ->. simpl. apply dict_get_set_eq.
  - intros [-> | ->]; simpl; apply dict_get_set_eq.
  - intros ->. simpl. apply dict_get_set_eq.
Qed.



(** ** Responses *)

Lemma yield_then_nil t : yield_then [] t = t.
Proof. by destruct t. Qed.

Lemma except_yield_then frs t :
  except_RequestException (yield_then frs t)
  = yield_then frs (except_RequestException t).
Proof.
  unfold except_RequestException, yield_then.
  destruct t as [fr [[]|]]; simpl; try done.
  by rewrite <-app_assoc.
Qed.

Lemma sent_prepare post self msg model msgs body (h : heap) req :
  sent (pipe post self msg model msgs body h) = Some req →
  ∃ h', prepare (set_headers self) msg body h = (Ok req, h').
Proof.
  unfold pipe. destruct (prepare _ _ _ _) as [[req'|e] h']; simpl; [|done].
  intros [= ->]. by exists h'.
Qed.




(** ** Streaming decode *)



Lemma decode_stream_skip pre post e m :
  decode_line m = Ok [] →
  decode_stream (pre ++ m :: post) e = decode_stream (pre ++ post) e.
Proof.
  intros Hm. induction pre as [|l pre IH]; simpl.
  - rewrite Hm. apply yield_then_nil.
  - by rewrite IH.
Qed.

(** Bytes that are not UTF-8 are decoded outside the inner [try]: the
    exception leaves the loop, and [pipe], after the fragments of the lines
    before. *)
Lemma decode_stream_undecodable pre c m post e :
  PyStr.utf8_valid (String c m) = false →
  raised (decode_stream pre Exhausted) = None →
  decode_stream (pre ++ String c m :: post) e
  = {| fragments := fragments (decode_stream pre Exhausted);
       raised := Some UnicodeDecodeError |}.
Proof.
  intros Hm. induction pre as [|l pre IH]; simpl.
  - intros _. unfold PyStr.decode_utf8. by rewrite Hm.
  - destruct (decode_line l) as [frs|err]; simpl; [|done].
    intros Hr. by rewrite (IH Hr).
Qed.

(** A data line whose remainder does not contain the marker again: the
    parser is given the remainder. *)
Lemma decode_line_data rest :
  PyStr.utf8_valid ("data: " +:+ rest) = true →
  PyStr.contains rest "data: " = false →
  decode_line ("data: " +:+ rest)
  = Ok match data ← Json.loads rest; decode_event data with
       | Ok frs => frs
       | Raise _ => []
       end.
Proof.
  intros Hv Hrest. unfold decode_line.
  change ("data: " +:+ rest) with (String "d" ("ata: " +:+ rest)) at 1.
  cbv iota. change (String "d" ("ata: " +:+ rest)) with ("data: " +:+ rest).
  unfold PyStr.decode_utf8. rewrite Hv.
  unfold mbind at 1, result_bind at 1. cbv beta iota.
  rewrite startswith_app, replace_strips_prefix by done.
  by destruct (Json.loads rest ≫= _).
Qed.


(** ** Schema and endpoint *)

Lemma document_fresh_schema (h : heap) (rest : pydict pyval) :
  forallb (λ kv, is_json kv.2) rest = true →
  document (inputs ← Py.alloc []; Py.alloc (("inputs", VRef inputs) :: rest)) h
  = Ok (JObject (("inputs", JObject []) :: render [] rest)).
Proof.
  intros Hrest. unfold document, Py.alloc, mbind, M_bind.
  set (li := fresh (dom h)). set (h1 := <[li := []]> h).
  set (ld := fresh (dom h1)).
  set (d := ("inputs", VRef li) :: rest).
  assert (ld ≠ li) as Hne.
  { intros Heq. pose proof (fresh_lookup h1) as Hf. fold ld in Hf.
    rewrite Heq in Hf. unfold h1 in Hf. by rewrite lookup_insert_eq in Hf. }
  destruct (size (<[ld := d]> h1)) as [|n] eqn:Hsize.
  { apply map_size_empty_inv in Hsize. by apply insert_non_empty in Hsize. }
  rewrite (snapshot_render n _ ld li d []); [done| | | |done].
  - apply lookup_insert_eq.
  - rewrite lookup_insert_ne by done. apply lookup_insert_eq.
  - simpl. rewrite Nat.eqb_refl. simpl.
    clear -Hrest. induction rest as [|[k x] rest IH]; [done|]. simpl in *.
    apply andb_prop in Hrest as [-> Hrest]. simpl. by apply IH.
Qed.

(** C4, as the code has it.  For each of the four modes the schema builder
    returns exactly the fields of the table and the endpoint resolver the
    host URL with the mode's suffix.  For any other mode both raise a
    [ValueError]: the endpoint resolver's message names the offending value,
    the schema builder's message is a fixed text that lists the four valid
    modes. *)
Theorem C4_schema_and_endpoint mode key rm usr self (h : heap) :
  DIFY_TYPE (valves self) = mode →
  let schema :=
    {| dify_type := mode; user_input_key := key; response_mode := rm;
       user := usr |} in
  let host := HOST_URL (valves self) in
  (mode = "workflow" →
   document (get_schema schema) h
   = Ok (JObject [("inputs", JObject []); ("response_mode", of_optional rm);
                  ("user", JStr usr)])
   ∧ create_api_url self = Ok (host +:+ "/v1/workflows/run"))
  ∧ (mode = "agent" →
     document (get_schema schema) h
     = Ok (JObject [("inputs", JObject []); ("query", JStr key);
                    ("response_mode", of_optional rm); ("user", JStr usr)])
     ∧ create_api_url self = Ok (host +:+ "/v1/chat-messages"))
  ∧ (mode = "chat" →
     document (get_schema schema) h
     = Ok (JObject [("inputs", JObject []); ("query", JStr EmptyString);
                    ("response_mode", of_optional rm); ("user", JStr usr)])
     ∧ create_api_url self = Ok (host +:+ "/v1/chat-messages"))
  ∧ (mode = "completion" →
     document (get_schema schema) h
     = Ok (JObject [("inputs", JObject []); ("response_mode", of_optional rm);
                    ("user", JStr usr)])
     ∧ create_api_url self = Ok (host +:+ "/v1/completion-messages"))
  ∧ (mode ≠ "workflow" → mode ≠ "agent" → mode ≠ "chat" → mode ≠ "completion" →
     get_schema schema h
     = (Raise (ValueError
          "Invalid dify_type. Must be 'completion', 'workflow', 'agent', or 'chat'"),
        h)
     ∧ create_api_url self = Raise (ValueError ("Invalid Dify type: " +:+ mode))).
Proof.
  intros Hmode schema host. unfold create_api_url, get_schema. rewrite Hmode.
  unfold schema. simpl dify_type.
  split_and!.
  - intros ->. simpl. split; [|done]. by rewrite document_fresh_schema.
  - intros ->. simpl. split; [|done]. by rewrite document_fresh_schema.
  - intros ->. simpl. split; [|done]. by rewrite document_fresh_schema.
  - intros ->. simpl. split; [|done]. by rewrite document_fresh_schema.
  - intros H1 H2 H3 H4.
    by rewrite !(proj2 (String.eqb_neq _ _)) by done.
Qed.

(** ** Configuration *)

Lemma getenv_AStr (env : environ) k d :
  getenv env k (AStr d) = AStr (default d (env !! k)).
Proof. unfold getenv. by destruct (env !! k). Qed.

Ltac hide_env env :=
  repeat match goal with
         | |- context [env !! ?k] => generalize (env !! k); intro
         end.

Lemma bind_Ok_inv {A B} (m : M A) (k : A → M B) (h h' : heap) b :
  (m ≫= k) h = (Ok b, h') → ∃ a h1, m h = (Ok a, h1) ∧ k a h1 = (Ok b, h').
Proof.
  unfold mbind, M_bind. destruct (m h) as [[a|e] h1]; [|done]. eauto.
Qed.

Lemma prepare_verify self msg body (h h' : heap) req :
  prepare self msg body h = (Ok req, h') →
  verify req = VERIFY_SSL (valves self)
  ∧ stream req = is_str (RESPONSE_MODE (valves self)) "streaming".
Proof.
  unfold prepare. intros Hp.
  repeat (apply bind_Ok_inv in Hp as (? & ? & _ & Hp)).
  by injection Hp as <-.
Qed.

(** C10.  [__init__] always hands [Valves] a [VERIFY_SSL] argument, so the
    class default [True] plays no part; with the environment variable unset
    the argument is [False], the flag of the configuration is [False], and
    so is the [verify] flag of every request [pipe] sends. *)
Theorem C10_verify_ssl_unset (env : environ) :
  (∃ a, dict_get (valves_kwargs env) "VERIFY_SSL" = Some a)
  ∧ (∀ d1 d2, optional_bool (valves_kwargs env) "VERIFY_SSL" d1
              = optional_bool (valves_kwargs env) "VERIFY_SSL" d2)
  ∧ (env !! "VERIFY_SSL" = None →
     dict_get (valves_kwargs env) "VERIFY_SSL" = Some (ABool false)
     ∧ (∃ v, new_Valves (valves_kwargs env) = Ok v ∧ VERIFY_SSL v = Some false)
     ∧ (∀ (h h' : heap) self,
          __init__ env h = (Ok self, h') →
          VERIFY_SSL (valves self) = Some false
          ∧ ∀ post msg model msgs body (h1 : heap) req,
              sent (pipe post self msg model msgs body h1) = Some req →
              verify req = Some false)).
Proof.
  split_and!.
  - unfold valves_kwargs, getenv. hide_env env. simpl. eauto.
  - intros d1 d2. unfold optional_bool, valves_kwargs, getenv. hide_env env.
    simpl. by case_match.
  - intros Hunset.
    assert (∃ v, new_Valves (valves_kwargs env) = Ok v ∧ VERIFY_SSL v = Some false)
      as (v & Hv & Hflag).
    { unfold new_Valves, valves_kwargs, required_str, optional_str, optional_bool.
      rewrite !getenv_AStr. unfold getenv. rewrite Hunset. hide_env env.
      match goal with o : option string |- context [match ?o' with _ => _ end] =>
        destruct o' as [[|]|] end; eexists; (split; [reflexivity|reflexivity]). }
    split_and!.
    + unfold valves_kwargs, getenv. rewrite Hunset. hide_env env. by simpl.
    + eauto.
    + intros h h' self Hinit. unfold __init__ in Hinit.
      apply bind_Ok_inv in Hinit as (v' & h1 & Hv' & Hinit).
      unfold Py.lift in Hv'. rewrite Hv in Hv'. injection Hv' as <- <-.
      apply bind_Ok_inv in Hinit as (l & h2 & _ & Hinit).
      injection Hinit as <- <-. split; [done|].
      intros post msg model msgs body h1 req [h3 Hp]%sent_prepare.
      apply prepare_verify in Hp as [-> _]. done.
Qed.

(** ** The invariant *)

Lemma well_formed_intro self (h : heap) schema li inputs :
  h !! data_schema self = Some schema →
  dict_get schema "inputs" = Some (VRef li) →
  li ≠ data_schema self →
  forallb (λ kv, is_json kv.2 || refers_to li kv.2) schema = true →
  h !! li = Some inputs →
  forallb (λ kv, is_json kv.2) inputs = true →
  well_formed self h = true.
Proof.
  intros Hs Hin Hne Hsh Hi Hfl. unfold well_formed.
  rewrite Hs, Hin, Hi, Hsh, Hfl.
  by rewrite (proj2 (Nat.eqb_neq _ _) Hne).
Qed.

Lemma get_schema_well_formed s (h h' : heap) l :
  get_schema s h = (Ok l, h') →
  ∃ schema li,
    h' !! l = Some schema ∧ dict_get schema "inputs" = Some (VRef li)
    ∧ li ≠ l
    ∧ forallb (λ kv, is_json kv.2 || refers_to li kv.2) schema = true
    ∧ h' !! li = Some [].
Proof.
  unfold get_schema.
  assert (∀ rest : pydict pyval,
            forallb (λ kv, is_json kv.2) rest = true →
            (inputs ← Py.alloc []; Py.alloc (("inputs", VRef inputs) :: rest)) h
            = (Ok l, h') →
            ∃ schema li,
              h' !! l = Some schema ∧ dict_get schema "inputs" = Some (VRef li)
              ∧ li ≠ l
              ∧ forallb (λ kv, is_json kv.2 || refers_to li kv.2) schema = true
              ∧ h' !! li = Some []) as Hbuild.
  { intros rest Hrest. unfold Py.alloc, mbind, M_bind.
    set (li := fresh (dom h)). set (h1 := <[li := []]> h).
    intros [= <- <-].
    assert (fresh (dom h1) ≠ li) as Hne.
    { intros Heq. pose proof (fresh_lookup h1) as Hf.
      rewrite Heq in Hf. unfold h1 in Hf. by rewrite lookup_insert_eq in Hf. }
    exists (("inputs", VRef li) :: rest), li. split_and!.
    - apply lookup_insert_eq.
    - done.
    - done.
    - simpl. rewrite Nat.eqb_refl. simpl.
      clear -Hrest. induction rest as [|[k x] rest IH]; [done|]. simpl in *.
      apply andb_prop in Hrest as [-> Hrest]. simpl. by apply IH.
    - rewrite lookup_insert_ne by done. apply lookup_insert_eq. }
  repeat case_match; try done; by apply Hbuild.
Qed.

(** [__init__] builds a well-formed state. *)
Lemma init_well_formed (env : environ) (h h' : heap) self :
  __init__ env h = (Ok self, h') → well_formed self h' = true.
Proof.
  unfold __init__. intros Hinit.
  apply bind_Ok_inv in Hinit as (v & h1 & _ & Hinit).
  apply bind_Ok_inv in Hinit as (l & h2 & Hschema & Hinit).
  injection Hinit as <- <-.
  apply get_schema_well_formed in Hschema
    as (schema & li & Hs & Hin & Hne & Hsh & Hi).
  by eapply well_formed_intro.
Qed.

(** What a call of [pipe] does to the store of a well-formed state: it adds
    one dictionary, the copy, and rewrites the [inputs] dictionary that the
    template refers to; the template's own items stay as they are. *)
Lemma pipe_store post self msg model msgs body (h : heap) :
  well_formed self h = true →
  let run := pipe post self msg model msgs body h in
  ∃ schema li inputs copied inputs',
    h !! data_schema self = Some schema
    ∧ dict_get schema "inputs" = Some (VRef li)
    ∧ h !! li = Some inputs
    ∧ heap_after run = <[li := inputs']> (<[fresh (dom h) := copied]> h)
    ∧ heap_after run !! data_schema self = Some schema
    ∧ heap_after run !! li = Some inputs'
    ∧ forallb (λ kv, is_json kv.2) inputs' = true
    ∧ (inputs' = placed_inputs (valves self) msg inputs
       ∨ ∃ o, extra_inputs (valves self) = Ok o
              ∧ inputs' = dict_update (placed_inputs (valves self) msg inputs)
                            (prod_map id VJson <$> o)).
Proof.
  intros Hwf run.
  pose proof Hwf as Hwf'.
  apply well_formed_inv in Hwf' as (schema & li & inputs & Hs & Hin & Hne & Hsh & Hi & Hfl).
  pose proof (prepare_eq (set_headers self) msg body h schema li inputs
                Hs Hin Hne Hsh Hi Hfl) as Hp.
  cbv zeta in Hp. simpl valves in Hp.
  pose proof (fresh_lookup h) as Hld.
  assert (fresh (dom h) ≠ data_schema self) as Hlds
    by (intros Heq; by rewrite Heq, Hs in Hld).
  assert (∀ X Y, (<[li := X]> (<[fresh (dom h) := Y]> h)) !! data_schema self
                 = Some schema) as Hframe.
  { intros X Y. by rewrite !lookup_insert_ne. }
  pose proof (placed_inputs_flat (valves self) msg inputs Hfl) as Hpi.
  exists schema, li, inputs.
  assert (∀ X Y,
            forallb (λ kv, is_json kv.2) X = true →
            (X = placed_inputs (valves self) msg inputs
             ∨ ∃ o, extra_inputs (valves self) = Ok o
                    ∧ X = dict_update (placed_inputs (valves self) msg inputs)
                            (prod_map id VJson <$> o)) →
            heap_after run = <[li := X]> (<[fresh (dom h) := Y]> h) →
            ∃ copied inputs',
              h !! data_schema self = Some schema
              ∧ dict_get schema "inputs" = Some (VRef li)
              ∧ h !! li = Some inputs
              ∧ heap_after run = <[li := inputs']> (<[fresh (dom h) := copied]> h)
              ∧ heap_after run !! data_schema self = Some schema
              ∧ heap_after run !! li = Some inputs'
              ∧ forallb (λ kv, is_json kv.2) inputs' = true
              ∧ (inputs' = placed_inputs (valves self) msg inputs
                 ∨ ∃ o, extra_inputs (valves self) = Ok o
                        ∧ inputs' = dict_update (placed_inputs (valves self) msg inputs)
                                      (prod_map id VJson <$> o))) as Hfin.
  { intros X Y HX Hor Heq. exists Y, X. rewrite Heq.
    split_and!; try done. apply lookup_insert_eq. }
  unfold run, pipe in Hfin |- *. rewrite Hp in Hfin |- *. clear Hp.
  destruct (caller_email body) as [email|e]; [|by eapply Hfin; [|left|]].
  destruct (extra_inputs (valves self)) as [o|e] eqn:Ho;
    [|by eapply Hfin; [|left|]].
  assert (forallb (λ kv, is_json kv.2)
            (dict_update (placed_inputs (valves self) msg inputs)
               (prod_map id VJson <$> o)) = true) as Hfi.
  { apply (forallb_dict_update is_json); [done | apply forallb_is_json_fmap]. }
  destruct (create_api_url _) as [target|e];
    (eapply Hfin; [exact Hfi | right; eauto | done]).
Qed.

(** [pipe] keeps a well-formed state well-formed. *)
Lemma pipe_well_formed post self msg model msgs body (h : heap) :
  well_formed self h = true →
  let run := pipe post self msg model msgs body h in
  well_formed (self_after run) (heap_after run) = true.
Proof.
  intros Hwf run.
  destruct (pipe_store post self msg model msgs body h Hwf)
    as (schema & li & inputs & copied & inputs' & Hs & Hin & Hi & _ & Hs' & Hi' & Hfl & _).
  apply well_formed_inv in Hwf as (schema0 & li0 & inputs0 & Hs0 & Hin0 & Hne & Hsh & _).
  rewrite Hs in Hs0. injection Hs0 as <-.
  rewrite Hin in Hin0. injection Hin0 as <-.
  assert (data_schema (self_after run) = data_schema self) as Hds.
  { unfold run, pipe. by destruct (prepare _ _ _ _) as [[?|?] ?]. }
  eapply (well_formed_intro _ _ schema li inputs'); rewrite ?Hds; done.
Qed.

(** ** Concrete runs *)

Lemma init_default : __init__ ∅ ∅ = (Ok default_pipeline, default_heap).
Proof. by vm_compute. Qed.

Lemma init_with_inputs :
  __init__ {[ "USER_INPUTS" := PyStr.jq "{'input': 'override'}" ]} ∅
  = (Ok (with_inputs (PyStr.jq "{'input': 'override'}")), default_heap).
Proof. by vm_compute. Qed.

Lemma init_with_mode :
  __init__ {[ "DIFY_TYPE" := "bogus" ]} ∅
  = (Raise (ValueError
       "Invalid dify_type. Must be 'completion', 'workflow', 'agent', or 'chat'"),
     ∅).
Proof. by vm_compute. Qed.

Lemma hello_sent post :
  sent (pipe post default_pipeline "hello" "model" [] caller default_heap)
  = Some hello_request.
Proof. by vm_compute. Qed.

(** C1.  The default pipeline, as [__init__] builds it, and one call of
    [pipe] with the message ["hello"]: before the call the template's
    [inputs] is empty, after the call it holds the message.  The copy made
    on line 232 is shallow, so line 234 writes into the dictionary the
    template refers to. *)
Theorem C1_template_inputs_mutated :
  __init__ ∅ ∅ = (Ok default_pipeline, default_heap)
  ∧ let run := pipe (unreachable "connection refused") default_pipeline
                 "hello" "model" [] caller default_heap in
    template default_pipeline default_heap
    = Ok (JObject [("inputs", JObject []);
                   ("response_mode", JStr "streaming");
                   ("user", JStr EmptyString)])
    ∧ template (self_after run) (heap_after run)
      = Ok (JObject [("inputs", JObject [("input", JStr "hello")]);
                     ("response_mode", JStr "streaming");
                     ("user", JStr EmptyString)])
    ∧ template (self_after run) (heap_after run)
      ≠ template default_pipeline default_heap.
Proof. split; [apply init_default|]. by vm_compute. Qed.

(** C2.  A line that starts with the marker and whose payload contains it
    again: [replace] removes both, so the JSON parser is not given the line
    without its prefix, and the fragment that comes out has lost a part of
    its text. *)
Theorem C2_replace_removes_every_marker :
  PyStr.startswith chunk_with_marker "data: " = true
  ∧ PyStr.drop 6 chunk_with_marker
    = PyStr.jq "{'event':'text_chunk','data':{'text':'see data: here'}}"
  ∧ PyStr.replace chunk_with_marker "data: " EmptyString
    = PyStr.jq "{'event':'text_chunk','data':{'text':'see here'}}"
  ∧ PyStr.replace chunk_with_marker "data: " EmptyString
    ≠ PyStr.drop 6 chunk_with_marker
  ∧ decode_line chunk_with_marker = Ok [JStr "see here"]
  ∧ (data ← Json.loads (PyStr.drop 6 chunk_with_marker); decode_event data)
    = Ok [JStr "see data: here"].
Proof. by vm_compute. Qed.

(** ** Counterexamples and instances *)

(** The schema builder's error for the mode ["bogus"] does not contain
    ["bogus"]. *)
Lemma C4_schema_error_omits_mode :
  ∃ msg,
    get_schema {| dify_type := "bogus"; user_input_key := "input";
                  response_mode := Some "streaming"; user := EmptyString |} ∅
    = (Raise (ValueError msg), ∅)
    ∧ PyStr.contains msg "bogus" = false.
Proof. eexists. split; by vm_compute. Qed.


(** C3 at the specification's example: mode workflow, input key ["input"],
    message ["hello"], extra inputs [{"input": "override"}]. *)
Lemma C3_override_example :
  ∃ req,
    sent (pipe (unreachable "down") (with_inputs (PyStr.jq "{'input': 'override'}"))
            "hello" "model" [] caller default_heap) = Some req
    ∧ path (body_json req) ["inputs"; "input"] = Ok (JStr "override").
Proof.
  apply (C3_extra_inputs_win _ _ _ _ _ _ _ (JStr "user@example.com")
           "http://host.docker.internal/v1/workflows/run"
           [("input", JStr "override")] "input" (JStr "override"));
    vm_compute; reflexivity.
Defined.

Lemma C4_bogus_mode :
  get_schema {| dify_type := "bogus"; user_input_key := "input";
                response_mode := Some "streaming"; user := EmptyString |} ∅
  = (Raise (ValueError
       "Invalid dify_type. Must be 'completion', 'workflow', 'agent', or 'chat'"),
     ∅)
  ∧ create_api_url (with_mode "bogus")
    = Raise (ValueError "Invalid Dify type: bogus").
Proof.
  apply (C4_schema_and_endpoint "bogus" "input" (Some "streaming") EmptyString
           (with_mode "bogus") ∅ eq_refl); by vm_compute.
Defined.




Lemma C8_anonymous_example :
  sent (pipe (unreachable "down") default_pipeline "hello" "model" [] anonymous
          default_heap) = None
  ∧ output (pipe (unreachable "down") default_pipeline "hello" "model" []
              anonymous default_heap) = throw (KeyError "user").
Proof.
  destruct (C8_caller_identity (unreachable "down") default_pipeline "hello"
              "model" [] anonymous default_heap eq_refl) as (_ & Hmissing & _).
  apply (Hmissing [("messages", JList [])]); reflexivity.
Defined.


Lemma C10_empty_environment :
  ∃ v, new_Valves (valves_kwargs ∅) = Ok v ∧ VERIFY_SSL v = Some false.
Proof.
  destruct (C10_verify_ssl_unset ∅) as (_ & _ & Hunset).
  apply (Hunset eq_refl).
Defined.

(** * Further properties of the code *)

(** ** What can be raised *)

Lemma quiet_bind {A B} (m : M A) (k : A → M B) :
  quiet m → (∀ a, quiet (k a)) → quiet (m ≫= k).
Proof.
  intros Hm Hk h h' e. unfold mbind, M_bind.
  destruct (m h) as [[a|e'] h1] eqn:Hmh.
  - apply Hk.
  - intros [= <- <-]. by eapply Hm.
Qed.

Lemma quiet_ret {A} (a : A) : quiet (mret a : M A).
Proof. by intros h h' e. Qed.

Lemma quiet_raise {A} e :
  other_than_request_exception e → quiet (Py.raise e : M A).
Proof. intros He h h' e'. by intros [= <- <-]. Qed.

Lemma quiet_lift {A} (r : result A) :
  (∀ e, r = Raise e → other_than_request_exception e) → quiet (Py.lift r).
Proof. intros Hr h h' e [= -> <-]. by apply Hr. Qed.

Lemma quiet_load l : quiet (Py.load l).
Proof.
  intros h h' e. unfold Py.load. destruct (h !! l); [done|].
  by intros [= <- <-] msg.
Qed.

Lemma quiet_store l d : quiet (Py.store l d).
Proof. by intros h h' e. Qed.

Lemma quiet_alloc d : quiet (Py.alloc d).
Proof. by intros h h' e. Qed.

Lemma quiet_getitem v k : quiet (Py.getitem v k).
Proof.
  destruct v as [j|l]; simpl.
  - apply quiet_lift. intros e.
    destruct (subscript j k) as [x|e'] eqn:Hs; [done|]. simpl.
    intros [= <-] msg. by apply subscript_raise in Hs as [->| ->].
  - apply quiet_bind; [apply quiet_load|]. intros d.
    destruct (dict_get d k); [apply quiet_ret | by apply quiet_raise].
Qed.

Lemma quiet_setitem v k x : quiet (Py.setitem v k x).
Proof.
  destruct v as [j|l]; simpl.
  - destruct j; by apply quiet_raise.
  - apply quiet_bind; [apply quiet_load|]. intros d. apply quiet_store.
Qed.

Lemma quiet_update v other : quiet (Py.update v other).
Proof.
  destruct v as [j|l]; simpl; [by apply quiet_raise|].
  apply quiet_bind; [apply quiet_load|]. intros d.
  destruct other as [| | | |[|]|[|]|];
    try apply quiet_store; try apply quiet_ret; by apply quiet_raise.
Qed.

Lemma collect_raise items e :
  Forall (λ kr, ∀ e', kr.2 = Raise e' → e' = Unmodelled) items →
  Py.collect items = Raise e → e = Unmodelled.
Proof.
  induction 1 as [|[k r] items Hr _ IH]; simpl; [done|].
  destruct r as [j|e']; simpl.
  - destruct (Py.collect items); simpl; [done|]. intros [= <-]. by apply IH.
  - intros [= <-]. by apply Hr.
Qed.

Lemma snapshot_at_raise fuel (h : heap) v e :
  Py.snapshot_at fuel h v = Raise e → e = Unmodelled.
Proof.
  revert v e. induction fuel as [|fuel IH]; intros [j|l] e; simpl; try done.
  - by intros [= <-].
  - destruct (h !! l) as [d|]; [|by intros [= <-]].
    destruct (Py.collect _) as [o|e'] eqn:Hc; simpl; [done|]. intros [= <-].
    apply collect_raise in Hc; [done|].
    apply Forall_fmap, Forall_forall. intros [k x] _ e''. apply IH.
Qed.

Lemma quiet_snapshot v : quiet (Py.snapshot v).
Proof.
  intros h h' e. unfold Py.snapshot. intros Heq msg.
  assert (Py.snapshot_at (S (size h)) h v = Raise e) as He by congruence.
  by apply snapshot_at_raise in He as ->.
Qed.

Lemma quiet_prepare self msg body : quiet (prepare self msg body).
Proof.
  unfold prepare, Py.copy, place_message, merge_inputs.
  repeat first
    [ apply quiet_getitem | apply quiet_setitem | apply quiet_update
    | apply quiet_snapshot | apply quiet_load | apply quiet_alloc
    | apply quiet_ret
    | apply quiet_bind; [|intros ?]
    | match goal with |- quiet (if ?b then _ else _) => destruct b end
    | match goal with |- quiet (match ?s with EmptyString => _ | _ => _ end) =>
        destruct s end ].
  - apply quiet_lift. intros e He msg'.
    by destruct (caller_email_raise _ _ He) as [->|[->| ->]].
  - apply quiet_lift. intros e He msg'.
    match type of He with Json.loads ?t = _ =>
      by destruct (loads_total t) as [[v Hv]|Hv]; rewrite Hv in He;
        simplify_eq
    end.
  - apply quiet_lift. unfold create_api_url. intros e He msg'.
    by repeat case_match; simplify_eq.
Qed.

(** X1.  A call that sends no request yields no fragment and ends with an
    exception that reaches the caller; it is never a [RequestException]. *)
Theorem X1_nothing_sent_nothing_yielded post self msg model msgs body (h : heap) :
  let run := pipe post self msg model msgs body h in
  sent run = None →
  fragments (output run) = []
  ∧ ∃ e, raised (output run) = Some e ∧ other_than_request_exception e.
Proof.
  intros run. unfold run, pipe.
  destruct (prepare _ _ _ _) as [[req|e] h'] eqn:Hp; simpl; [done|].
  intros _. apply quiet_prepare in Hp.
  assert (except_RequestException (throw e) = throw e) as ->.
  { unfold except_RequestException. simpl. destruct e; try done. by destruct (Hp msg0). }
  split; [done|]. by exists e.
Qed.

(** ** Decoding a response *)

Lemma decode_line_raise l e :
  decode_line l = Raise e → e = UnicodeDecodeError ∧ PyStr.utf8_valid l = false.
Proof.
  unfold decode_line. destruct l as [|c l'] eqn:Hl; [done|]. rewrite <-Hl.
  unfold PyStr.decode_utf8. destruct (PyStr.utf8_valid l) eqn:Hv.
  - unfold mbind at 1, result_bind at 1. cbv beta iota.
    destruct (PyStr.startswith _ _); [|done].
    by destruct (Json.loads _ ≫= _).
  - by intros [= <-].
Qed.

Lemma decode_event_length data frs :
  decode_event data = Ok frs → (length frs ≤ 1)%nat.
Proof.
  unfold decode_event. intros He.
  repeat (case_match; simplify_eq; simpl in *; try lia);
    repeat match goal with
           | H : context [subscript ?j ?k] |- _ =>
               destruct (subscript j k); simpl in H; simplify_eq
           | H : context [json_in ?k ?j] |- _ =>
               destruct (json_in k j) as [[]|]; simpl in H; simplify_eq
           | H : context [if ?b then _ else _] |- _ =>
               destruct b; simpl in H; simplify_eq
           end; simpl; lia.
Qed.

Lemma decode_line_length l frs :
  decode_line l = Ok frs → (length frs ≤ 1)%nat.
Proof.
  unfold decode_line. destruct l as [|c l'] eqn:Hl.
  { intros [= <-]. simpl. lia. }
  rewrite <-Hl. unfold PyStr.decode_utf8.
  destruct (PyStr.utf8_valid l); [|done].
  unfold mbind at 1, result_bind at 1. cbv beta iota.
  destruct (PyStr.startswith _ _); [|intros [= <-]; simpl; lia].
  destruct (Json.loads _) as [data|e]; simpl.
  - destruct (decode_event data) as [frs'|e] eqn:He.
    + intros [= <-]. by eapply decode_event_length.
    + intros [= <-]. simpl. lia.
  - intros [= <-]. simpl. lia.
Qed.

Lemma decode_stream_raised ls closing e :
  raised (decode_stream ls closing) = Some e →
  (e = UnicodeDecodeError ∧ Exists (λ l, PyStr.utf8_valid l = false) ls)
  ∨ ∃ msg, e = RequestException msg ∧ closing = Broken msg.
Proof.
  induction ls as [|l ls IH]; simpl.
  - destruct closing; simpl; [done|]. intros [= <-]. right. eauto.
  - destruct (decode_line l) as [frs|e'] eqn:Hl; simpl.
    + intros [[-> Hex]|Hr]%IH; [left | by right]. split; [done|].
      by apply Exists_cons_tl.
    + intros [= <-]. apply decode_line_raise in Hl as [-> Hv]. left.
      split; [done|]. by apply Exists_cons_hd.
Qed.

Lemma decode_stream_length ls closing :
  (length (fragments (decode_stream ls closing)) ≤ length ls)%nat.
Proof.
  induction ls as [|l ls IH]; simpl.
  - by destruct closing.
  - destruct (decode_line l) as [frs|e] eqn:Hl; simpl; [|lia].
    apply decode_line_length in Hl. rewrite length_app. lia.
Qed.


Lemma decode_response_status v r :
  decode_response v r
  = yield_then (status_fragment r)
      (if is_str (RESPONSE_MODE v) "streaming"
       then decode_stream (lines r) (ending r)
       else decode_blocking (text r)).
Proof. done. Qed.

Lemma output_answered post self msg model msgs body (h : heap) req r :
  sent (pipe post self msg model msgs body h) = Some req →
  post req = Answered r →
  output (pipe post self msg model msgs body h)
  = except_RequestException (decode_response (valves self) r).
Proof.
  intros [h' Hp]%sent_prepare Hpost. unfold pipe. rewrite Hp. simpl.
  by rewrite Hpost.
Qed.



(** X4.  In streaming mode every line of the response yields at most one
    fragment: an answered call yields at most as many fragments as lines
    were received, plus the status fragment of a response other than 200 and
    the error string of a stream that broke. *)
Theorem X4_streaming_fragment_bound post self msg model msgs body (h : heap) req r :
  let run := pipe post self msg model msgs body h in
  sent run = Some req → post req = Answered r →
  is_str (RESPONSE_MODE (valves self)) "streaming" = true →
  (length (fragments (output run))
   ≤ length (status_fragment r) + length (lines r)
     + match ending r with Exhausted => 0 | Broken _ => 1 end)%nat.
Proof.
  intros run Hsent Hpost Hmode. unfold run.
  rewrite (output_answered _ _ _ _ _ _ _ _ _ Hsent Hpost).
  rewrite decode_response_status, Hmode, except_yield_then. simpl.
  rewrite length_app.
  pose proof (decode_stream_length (lines r) (ending r)) as Hlen.
  unfold except_RequestException.
  destruct (raised (decode_stream _ _)) as [e|] eqn:Hr; [|lia].
  destruct (decode_stream_raised _ _ _ Hr) as [[-> _]|(m & -> & Hend)].
  - lia.
  - rewrite Hend in *. simpl. rewrite length_app. simpl. lia.
Qed.

(** X5.  The stream is decoded line by line, with nothing carried from one
    line to the next: the fragments of two runs of lines, one after the
    other, are those of the first followed by those of the second, unless a
    line of the first run raised, which ends the decoding there. *)
Theorem X5_stream_composes ls1 ls2 closing :
  (raised (decode_stream ls1 Exhausted) = None →
   decode_stream (ls1 ++ ls2) closing
   = yield_then (fragments (decode_stream ls1 Exhausted))
       (decode_stream ls2 closing))
  ∧ (∀ e, raised (decode_stream ls1 Exhausted) = Some e →
          decode_stream (ls1 ++ ls2) closing = decode_stream ls1 Exhausted).
Proof.
  induction ls1 as [|l ls1 [IHok IHerr]]; simpl.
  - split; [intros _; by rewrite yield_then_nil | done].
  - destruct (decode_line l) as [frs|e]; simpl; [|by split].
    split.
    + intros Hr. rewrite (IHok Hr). unfold yield_then. simpl.
      by rewrite app_assoc.
    + intros e Hr. by rewrite (IHerr e Hr).
Qed.

(** X6.  A line of text that does not start with the marker ["data: "]
    yields nothing, wherever it stands in the stream: an empty keep-alive
    line, a comment or [event:] line, and also a data line written without
    the space after the colon. *)
Theorem X6_other_lines_ignored pre m post closing :
  PyStr.utf8_valid m = true →
  PyStr.startswith m "data: " = false →
  decode_line m = Ok []
  ∧ decode_stream (pre ++ m :: post) closing = decode_stream (pre ++ post) closing.
Proof.
  intros Hv Hm.
  assert (decode_line m = Ok []) as Hline.
  { unfold decode_line. destruct m as [|c m'] eqn:Heq; [done|].
    rewrite <-Heq in *. unfold PyStr.decode_utf8. rewrite Hv.
    unfold mbind, result_bind. by rewrite Hm. }
  split; [done | by apply decode_stream_skip].
Qed.

(** X7.  A data line whose payload does not contain the marker ["data: "]
    again is parsed as the text after the marker: it yields what the event
    written there yields, and nothing when that text is not JSON or the
    event lacks a field. *)
Theorem X7_data_line_payload payload :
  PyStr.utf8_valid ("data: " +:+ payload) = true →
  PyStr.contains payload "data: " = false →
  decode_line ("data: " +:+ payload)
  = Ok match data ← Json.loads payload; decode_event data with
       | Ok frs => frs
       | Raise _ => []
       end
  ∧ (∀ e, Json.loads payload = Raise e → decode_line ("data: " +:+ payload) = Ok [])
  ∧ (∀ data frs, Json.loads payload = Ok data → decode_event data = Ok frs →
                 decode_line ("data: " +:+ payload) = Ok frs).
Proof.
  intros Hv Hc.
  assert (∀ x, String "d" x = "d" +:+ x) as Hd by done.
  assert (decode_line ("data: " +:+ payload)
          = Ok match data ← Json.loads payload; decode_event data with
               | Ok frs => frs
               | Raise _ => []
               end) as Hline.
  { unfold decode_line.
    change ("data: " +:+ payload) with (String "d" ("ata: " +:+ payload)) at 1.
    cbv iota. change (String "d" ("ata: " +:+ payload)) with ("data: " +:+ payload).
    unfold PyStr.decode_utf8. rewrite Hv.
    unfold mbind at 1, result_bind at 1. cbv beta iota.
    rewrite startswith_app, replace_strips_prefix by done.
    by destruct (Json.loads payload ≫= _). }
  split_and!; [done|..].
  - intros e He. by rewrite Hline, He.
  - intros data frs Hdata Hfrs. rewrite Hline, Hdata. simpl. by rewrite Hfrs.
Qed.

(** X8.  A streamed line that is not empty and not UTF-8 ends the call with
    a [UnicodeDecodeError] that reaches the caller: the caller has received
    the fragments of the lines before it (after the status fragment, if
    any), and the lines after it are never decoded. *)
Theorem X8_undecodable_line_aborts post self msg model msgs body (h : heap)
    req r pre c bad rest :
  let run := pipe post self msg model msgs body h in
  sent run = Some req → post req = Answered r →
  is_str (RESPONSE_MODE (valves self)) "streaming" = true →
  lines r = (pre ++ String c bad :: rest)%list →
  PyStr.utf8_valid (String c bad) = false →
  raised (decode_stream pre Exhausted) = None →
  output run
  = {| fragments := (status_fragment r
                     ++ fragments (decode_stream pre Exhausted))%list;
       raised := Some UnicodeDecodeError |}.
Proof.
  intros run Hsent Hpost Hmode Hlines Hbad Hpre. unfold run.
  rewrite (output_answered _ _ _ _ _ _ _ _ _ Hsent Hpost).
  rewrite decode_response_status, Hmode, Hlines.
  by rewrite (decode_stream_undecodable _ _ _ _ _ Hbad Hpre).
Qed.

(** ** The store across calls *)

Lemma pipe_self_after post self msg model msgs body (h : heap) :
  self_after (pipe post self msg model msgs body h) = set_headers self.
Proof. unfold pipe. by destruct (prepare _ _ _ _) as [[?|?] ?]. Qed.

(** X9.  What a call leaves alone, on a well-formed state: the template's
    own items, every dictionary of the store other than the [inputs]
    dictionary the template refers to, and the configuration.  The call adds
    exactly one dictionary, its copy of the template. *)
Theorem X9_pipe_frame post self msg model msgs body (h : heap) :
  well_formed self h = true →
  let run := pipe post self msg model msgs body h in
  ∃ schema li,
    h !! data_schema self = Some schema
    ∧ dict_get schema "inputs" = Some (VRef li)
    ∧ heap_after run !! data_schema self = Some schema
    ∧ (∀ l, l ≠ li → is_Some (h !! l) → heap_after run !! l = h !! l)
    ∧ dom (heap_after run) = dom h ∪ {[fresh (dom h)]}
    ∧ valves (self_after run) = valves self
    ∧ data_schema (self_after run) = data_schema self.
Proof.
  intros Hwf run.
  destruct (pipe_store post self msg model msgs body h Hwf)
    as (schema & li & inputs & copied & inputs' & Hs & Hin & Hi & Hh & Hs' & _).
  exists schema, li. fold run in Hh, Hs'. split_and!; try done.
  - intros l Hl [d Hd]. rewrite Hh, lookup_insert_ne by done.
    rewrite lookup_insert_ne; [done|]. intros <-.
    by rewrite fresh_lookup in Hd.
  - rewrite Hh, !dom_insert_L.
    assert (li ∈ dom h) as Hli by (apply elem_of_dom; eauto).
    apply set_eq. intros l. rewrite !elem_of_union, !elem_of_singleton.
    split; [intros [ -> | [ -> | ? ] ]; auto | intros [ ? | -> ]; auto].
  - unfold run. by rewrite pipe_self_after.
  - unfold run. by rewrite pipe_self_after.
Qed.

(** X10.  The state that [__init__] builds is well-formed and stays so
    through any sequence of calls, whatever the messages, the callers and
    the servers' answers, and whether the calls end normally or not. *)
Theorem X10_well_formed_forever (env : environ) (h0 h : heap) self cs :
  __init__ env h0 = (Ok self, h) →
  well_formed self h = true
  ∧ well_formed (after_calls cs self h).1 (after_calls cs self h).2 = true.
Proof.
  intros Hinit%init_well_formed. split; [done|].
  revert self h Hinit. induction cs as [|c cs IH]; intros self h Hwf; [done|].
  simpl. apply IH. by apply pipe_well_formed.
Qed.

(** ** Storing the same keys again *)

Section DictAlgebra.
Context {V : Type}.
Implicit Types (d o : pydict V) (k j : string).

Lemma dict_set_set d k (a b : V) : dict_set (dict_set d k a) k b = dict_set d k b.
Proof.
  induction d as [|[k' v'] d IH]; simpl.
  - by rewrite String.eqb_refl.
  - destruct (String.eqb_spec k' k) as [->|Hne]; simpl.
    + by rewrite String.eqb_refl.
    + by rewrite (proj2 (String.eqb_neq _ _) Hne), IH.
Qed.

Lemma dict_set_same d k (x : V) : dict_get d k = Some x → dict_set d k x = d.
Proof.
  induction d as [|[k' v'] d IH]; simpl; [done|].
  destruct (String.eqb_spec k' k) as [->|Hne]; [by intros [= ->]|].
  intros Hd. by rewrite IH.
Qed.

Lemma dict_set_comm d k j (a b : V) :
  k ≠ j → is_Some (dict_get d k) →
  dict_set (dict_set d k a) j b = dict_set (dict_set d j b) k a.
Proof.
  intros Hkj. induction d as [|[k' v'] d IH]; simpl; [by intros [? [=]]|].
  destruct (String.eqb_spec k' k) as [->|Hne]; simpl.
  - intros _. rewrite (proj2 (String.eqb_neq _ _) Hkj). simpl.
    by rewrite String.eqb_refl.
  - intros Hd. destruct (String.eqb_spec k' j) as [->|Hne']; simpl.
    + by rewrite (proj2 (String.eqb_neq _ _) Hne).
    + by rewrite (proj2 (String.eqb_neq _ _) Hne), IH.
Qed.

Lemma dict_set_present d k j (b : V) :
  is_Some (dict_get d k) → is_Some (dict_get (dict_set d j b) k).
Proof.
  intros Hd. destruct (decide (j = k)) as [->|Hne].
  - rewrite dict_get_set_eq. eauto.
  - by rewrite dict_get_set_ne.
Qed.

Lemma dict_update_cons d k (x : V) o :
  dict_update d ((k, x) :: o) = dict_update (dict_set d k x) o.
Proof. done. Qed.

Lemma dict_update_present d o k :
  is_Some (dict_get d k) → is_Some (dict_get (dict_update d o) k).
Proof.
  revert d. induction o as [|[j x] o IH]; intros d Hd; [done|].
  rewrite dict_update_cons. by apply IH, dict_set_present.
Qed.

Lemma dict_update_fixed d o :
  NoDup o.*1 → (∀ j x, dict_get o j = Some x → dict_get d j = Some x) →
  dict_update d o = d.
Proof.
  induction o as [|[j x] o IH]; intros Hnd Hd; [done|].
  apply NoDup_cons in Hnd as [Hj Hnd]. simpl in Hj.
  rewrite dict_update_cons, dict_set_same.
  - apply IH; [done|]. intros j' x' Hj'. apply Hd. simpl.
    destruct (String.eqb_spec j j') as [->|_]; [|done].
    apply dict_get_None in Hj. congruence.
  - apply Hd. simpl. by rewrite String.eqb_refl.
Qed.

(** Merging the same items twice is merging them once. *)
Lemma dict_update_idem d o :
  NoDup o.*1 → dict_update (dict_update d o) o = dict_update d o.
Proof.
  intros Hnd. apply dict_update_fixed; [done|].
  intros j x Hj. by rewrite dict_get_update, Hj.
Qed.

Lemma dict_set_update_comm d o k (b : V) :
  is_Some (dict_get d k) → dict_get o k = None →
  dict_set (dict_update d o) k b = dict_update (dict_set d k b) o.
Proof.
  revert d. induction o as [|[j x] o IH]; intros d Hd Ho; [done|].
  simpl in Ho. destruct (String.eqb_spec j k) as [->|Hne]; [done|].
  rewrite !dict_update_cons, IH by (by try apply dict_set_present).
  by rewrite (dict_set_comm d k j) by (done || congruence).
Qed.

Lemma dict_set_absorbed d o k (b x : V) :
  is_Some (dict_get d k) → NoDup o.*1 → dict_get o k = Some x →
  dict_update (dict_set d k b) o = dict_update d o.
Proof.
  revert d. induction o as [|[j y] o IH]; intros d Hd Hnd Ho; [done|].
  apply NoDup_cons in Hnd as [Hj Hnd]. simpl in Hj, Ho.
  rewrite !dict_update_cons.
  destruct (String.eqb_spec j k) as [->|Hne].
  - by rewrite dict_set_set.
  - rewrite (dict_set_comm d k j) by (done || congruence).
    by apply IH; [apply dict_set_present| |].
Qed.

(** Setting a key that is there, after a merge, and merging again gives what
    setting the key and merging once gives. *)
Lemma dict_update_set_update d o k (b : V) :
  is_Some (dict_get d k) → NoDup o.*1 →
  dict_update (dict_set (dict_update d o) k b) o = dict_update (dict_set d k b) o.
Proof.
  intros Hd Hnd. destruct (dict_get o k) as [x|] eqn:Ho.
  - rewrite (dict_set_absorbed (dict_update d o) o k b x)
      by (done || by apply dict_update_present).
    rewrite (dict_set_absorbed d o k b x) by done.
    by apply dict_update_idem.
  - rewrite dict_set_update_comm by done. by apply dict_update_idem.
Qed.

End DictAlgebra.

(** ** Calls do not depend on earlier calls *)

Lemma placed_inputs_again v m1 m2 (ins : pydict pyval) :
  placed_inputs v m2 (placed_inputs v m1 ins) = placed_inputs v m2 ins.
Proof.
  unfold placed_inputs.
  repeat match goal with |- context [if ?b then _ else _] => destruct b end;
    try done; apply dict_set_set.
Qed.

Lemma placed_inputs_after_merge v m1 m2 (ins o : pydict pyval) :
  NoDup o.*1 →
  dict_update (placed_inputs v m2 (dict_update (placed_inputs v m1 ins) o)) o
  = dict_update (placed_inputs v m2 ins) o.
Proof.
  intros Hnd. unfold placed_inputs.
  repeat match goal with |- context [if ?b then _ else _] => destruct b end;
    try (by apply dict_update_idem).
  - rewrite dict_update_set_update, dict_set_set; [done| |done].
    rewrite dict_get_set_eq. eauto.
  - rewrite dict_update_set_update, dict_set_set; [done| |done].
    rewrite dict_get_set_eq. eauto.
Qed.

Lemma prepare_same_request self msg body (h1 h2 : heap) schema li ins1 ins2 :
  li ≠ data_schema self →
  dict_get schema "inputs" = Some (VRef li) →
  forallb (λ kv, is_json kv.2 || refers_to li kv.2) schema = true →
  h1 !! data_schema self = Some schema → h1 !! li = Some ins1 →
  forallb (λ kv, is_json kv.2) ins1 = true →
  h2 !! data_schema self = Some schema → h2 !! li = Some ins2 →
  forallb (λ kv, is_json kv.2) ins2 = true →
  (∀ o, extra_inputs (valves self) = Ok o →
        dict_update (placed_inputs (valves self) msg ins1) (prod_map id VJson <$> o)
        = dict_update (placed_inputs (valves self) msg ins2)
            (prod_map id VJson <$> o)) →
  (prepare self msg body h1).1 = (prepare self msg body h2).1.
Proof.
  intros Hne Hin Hsh Hs1 Hi1 Hf1 Hs2 Hi2 Hf2 Hsame.
  rewrite (prepare_eq self msg body h1 schema li ins1) by done.
  rewrite (prepare_eq self msg body h2 schema li ins2) by done.
  cbv zeta.
  destruct (caller_email body) as [email|e]; [|done].
  destruct (extra_inputs (valves self)) as [o|e] eqn:Ho; [|done].
  destruct (create_api_url self) as [target|e]; [|done].
  simpl. by rewrite (Hsame o).
Qed.

Lemma pipe_same_request post self msg model msgs body (h1 h2 : heap) :
  (prepare (set_headers self) msg body h1).1
  = (prepare (set_headers self) msg body h2).1 →
  sent (pipe post self msg model msgs body h1)
  = sent (pipe post self msg model msgs body h2)
  ∧ output (pipe post self msg model msgs body h1)
    = output (pipe post self msg model msgs body h2).
Proof.
  unfold pipe.
  destruct (prepare _ _ _ h1) as [[req1|e1] h1'],
    (prepare _ _ _ h2) as [[req2|e2] h2']; simpl; by intros [= ->].
Qed.

Lemma pipe_after_pipe c1 post self msg model msgs body (h : heap) :
  well_formed self h = true →
  let earlier := pipe_call c1 self h in
  sent (pipe post (self_after earlier) msg model msgs body (heap_after earlier))
  = sent (pipe post self msg model msgs body h)
  ∧ output (pipe post (self_after earlier) msg model msgs body (heap_after earlier))
    = output (pipe post self msg model msgs body h).
Proof.
  intros Hwf earlier.
  destruct (pipe_store (call_post c1) self (call_message c1) (call_model c1)
              (call_messages c1) (call_body c1) h Hwf)
    as (schema & li & inputs & copied & inputs' & Hs & Hin & Hi & _ & Hs' & Hi'
        & Hfl' & Hinputs').
  apply well_formed_inv in Hwf
    as (schema0 & li0 & inputs0 & Hs0 & Hin0 & Hne & Hsh & Hi0 & Hfl).
  rewrite Hs in Hs0. injection Hs0 as <-.
  rewrite Hin in Hin0. injection Hin0 as <-.
  rewrite Hi in Hi0. injection Hi0 as <-.
  fold (pipe_call c1 self h) in Hs', Hi'. fold earlier in Hs', Hi'.
  assert (self_after earlier = set_headers self) as ->
    by apply pipe_self_after.
  assert (∀ s, pipe post (set_headers self) msg model msgs body s
               = pipe post self msg model msgs body s) as Hset by done.
  rewrite Hset. apply pipe_same_request.
  apply (prepare_same_request _ _ _ _ _ schema li inputs' inputs); try done.
  intros o Ho. simpl valves in *.
  destruct (extra_inputs_inv _ _ Ho) as [Hnd _].
  destruct Hinputs' as [->|(o' & Ho' & ->)].
  - by rewrite placed_inputs_again.
  - assert (o' = o) as -> by congruence.
    apply placed_inputs_after_merge. by rewrite fmap_keys.
Qed.

(** X11.  On a well-formed state, what a call sends and what it yields do
    not depend on the calls made before it: after any sequence of earlier
    calls, whatever their messages, callers and outcomes, the call sends the
    same request and gives the same output as it would have as the first
    call.  The writes into the shared [inputs] dictionary (C1) store, under
    an unchanged configuration, the same keys again. *)
Theorem X11_earlier_calls_do_not_matter cs post self msg model msgs body (h : heap) :
  well_formed self h = true →
  let self' := (after_calls cs self h).1 in
  let h' := (after_calls cs self h).2 in
  sent (pipe post self' msg model msgs body h')
  = sent (pipe post self msg model msgs body h)
  ∧ output (pipe post self' msg model msgs body h')
    = output (pipe post self msg model msgs body h).
Proof.
  revert self h. induction cs as [|c cs IH]; intros self h Hwf; [done|].
  simpl.
  destruct (IH (self_after (pipe_call c self h)) (heap_after (pipe_call c self h)))
    as [Hsent Hout]; [by apply pipe_well_formed|].
  destruct (pipe_after_pipe c post self msg model msgs body h Hwf) as [Hs Ho].
  split; congruence.
Qed.

(** ** Building pipelines *)

Lemma get_schema_inv s (h h' : heap) r :
  get_schema s h = (r, h') →
  (In (dify_type s) ["workflow"; "agent"; "chat"; "completion"]
   ∧ ∃ rest,
       let li := fresh (dom h) in
       let ld := fresh (dom (<[li := []]> h)) in
       r = Ok ld
       ∧ h' = <[ld := ("inputs", VRef li) :: rest]> (<[li := []]> h)
       ∧ forallb (λ kv, is_json kv.2) rest = true)
  ∨ (¬ In (dify_type s) ["workflow"; "agent"; "chat"; "completion"]
     ∧ r = Raise (ValueError
           "Invalid dify_type. Must be 'completion', 'workflow', 'agent', or 'chat'")
     ∧ h' = h).
Proof.
  unfold get_schema.
  destruct (String.eqb_spec (dify_type s) "workflow") as [Hw|Hw].
  { intros [= <- <-]. left. rewrite Hw. split; [simpl; auto|]. by eexists. }
  destruct (String.eqb_spec (dify_type s) "agent") as [Ha|Ha].
  { intros [= <- <-]. left. rewrite Ha. split; [simpl; auto|]. by eexists. }
  destruct (String.eqb_spec (dify_type s) "chat") as [Hc|Hc].
  { intros [= <- <-]. left. rewrite Hc. split; [simpl; auto|]. by eexists. }
  destruct (String.eqb_spec (dify_type s) "completion") as [Hp|Hp].
  { intros [= <- <-]. left. rewrite Hp. split; [simpl; auto 6|]. by eexists. }
  intros [= <- <-]. right. split; [|done]. simpl. intros [?|[?|[?|[?|[]]]]]; congruence.
Qed.

Lemma init_inv (env : environ) (h h' : heap) r :
  __init__ env h = (r, h') →
  match new_Valves (valves_kwargs env) with
  | Raise e => r = Raise e ∧ h' = h
  | Ok v =>
      ∃ r0,
        get_schema {| dify_type := DIFY_TYPE v; user_input_key := USER_INPUT_KEY v;
                      response_mode := RESPONSE_MODE v; user := EmptyString |} h
        = (r0, h')
        ∧ r = (λ l, {| valves := v; name := APP_NAME v; headers := None;
                       data_schema := l; debug := false |}) <$> r0
  end.
Proof.
  unfold __init__, mbind, M_bind, Py.lift.
  destruct (new_Valves (valves_kwargs env)) as [v|e]; [|by intros [= <- <-]].
  destruct (get_schema _ h) as [[l|e] h1]; intros [= <- <-]; by eexists.
Qed.

Lemma init_fresh_parts (env : environ) (h h' : heap) self :
  __init__ env h = (Ok self, h') →
  ∃ schema li,
    h' !! data_schema self = Some schema
    ∧ dict_get schema "inputs" = Some (VRef li)
    ∧ h !! data_schema self = None ∧ h !! li = None
    ∧ (∀ l, is_Some (h !! l) → h' !! l = h !! l).
Proof.
  intros Hinit%init_inv.
  destruct (new_Valves (valves_kwargs env)) as [v|e]; [|by destruct Hinit].
  destruct Hinit as (r0 & Hschema & Hself).
  apply get_schema_inv in Hschema as [[Hmode (rest & Hr0 & -> & Hrest)]|(_ & -> & _)];
    [|done].
  cbv zeta in Hr0. subst r0. injection Hself as ->. simpl in *.
  set (li := fresh (dom h)) in *. set (h1 := <[li := []]> h) in *.
  set (ld := fresh (dom h1)) in *.
  assert (h1 !! ld = None) as Hld by apply fresh_lookup.
  assert (h !! li = None) as Hli by apply fresh_lookup.
  assert (ld ≠ li) as Hne.
  { intros Heq. rewrite Heq in Hld. unfold h1 in Hld.
    by rewrite lookup_insert_eq in Hld. }
  assert (h !! ld = None) as Hld'.
  { unfold h1 in Hld. by rewrite lookup_insert_ne in Hld. }
  exists (("inputs", VRef li) :: rest), li. split_and!; try done.
  - apply lookup_insert_eq.
  - intros l [d Hd]. unfold h1.
    rewrite !lookup_insert_ne; [done|..]; intros Heq; rewrite Heq in *;
      congruence.
Qed.

(** X12.  A pipeline that [__init__] builds has dictionaries of its own: its
    template and the template's [inputs], which is empty, are new in the
    store, and every dictionary that was there is left as it was.  Its mode
    is one of the four, so [create_api_url] does not fail on it. *)
Theorem X12_init_builds_fresh_template (env : environ) (h h' : heap) self :
  __init__ env h = (Ok self, h') →
  ∃ schema li,
    h' !! data_schema self = Some schema
    ∧ dict_get schema "inputs" = Some (VRef li)
    ∧ h' !! li = Some []
    ∧ h !! data_schema self = None ∧ h !! li = None ∧ li ≠ data_schema self
    ∧ (∀ l, is_Some (h !! l) → h' !! l = h !! l)
    ∧ In (DIFY_TYPE (valves self)) ["workflow"; "agent"; "chat"; "completion"]
    ∧ ∃ target, create_api_url self = Ok target.
Proof.
  intros Hinit%init_inv.
  destruct (new_Valves (valves_kwargs env)) as [v|e]; [|by destruct Hinit].
  destruct Hinit as (r0 & Hschema & Hself).
  apply get_schema_inv in Hschema as [[Hmode (rest & Hr0 & -> & Hrest)]|(_ & -> & _)];
    [|done].
  cbv zeta in Hr0. subst r0. injection Hself as ->. simpl in *.
  set (li := fresh (dom h)) in *. set (h1 := <[li := []]> h) in *.
  set (ld := fresh (dom h1)) in *.
  assert (h1 !! ld = None) as Hld by apply fresh_lookup.
  assert (h !! li = None) as Hli by apply fresh_lookup.
  assert (ld ≠ li) as Hne.
  { intros Heq. rewrite Heq in Hld. unfold h1 in Hld.
    by rewrite lookup_insert_eq in Hld. }
  assert (h !! ld = None) as Hld'.
  { unfold h1 in Hld. by rewrite lookup_insert_ne in Hld. }
  exists (("inputs", VRef li) :: rest), li. split_and!; try done.
  - apply lookup_insert_eq.
  - rewrite lookup_insert_ne by done. apply lookup_insert_eq.
  - intros l [d Hd]. unfold h1.
    rewrite !lookup_insert_ne; [done|..]; intros Heq; rewrite Heq in *;
      congruence.
  - unfold create_api_url. simpl.
    destruct Hmode as [<-|[<-|[<-|[<-|[]]]]]; simpl; eauto.
Qed.

Lemma template_eq self (h : heap) schema li inputs :
  h !! data_schema self = Some schema →
  dict_get schema "inputs" = Some (VRef li) →
  forallb (λ kv, is_json kv.2 || refers_to li kv.2) schema = true →
  h !! li = Some inputs →
  forallb (λ kv, is_json kv.2) inputs = true →
  template self h = Ok (JObject (render inputs schema)).
Proof.
  intros Hs Hin Hsh Hi Hfl. unfold template.
  destruct (size h) as [|n] eqn:Hsize.
  { apply map_size_empty_inv in Hsize. by rewrite Hsize in Hs. }
  by apply (snapshot_render n h _ li).
Qed.

Lemma calls_frame cs self (h : heap) schema li :
  well_formed self h = true →
  h !! data_schema self = Some schema →
  dict_get schema "inputs" = Some (VRef li) →
  (∀ l, l ≠ li → is_Some (h !! l) → (after_calls cs self h).2 !! l = h !! l)
  ∧ data_schema (after_calls cs self h).1 = data_schema self.
Proof.
  revert self h. induction cs as [|c cs IH]; intros self h Hwf Hs Hin; [done|].
  simpl.
  destruct (pipe_store (call_post c) self (call_message c) (call_model c)
              (call_messages c) (call_body c) h Hwf)
    as (schema0 & li0 & inputs & copied & inputs' & Hs0 & Hin0 & Hi & Hh & Hs' & _).
  rewrite Hs in Hs0. injection Hs0 as <-.
  rewrite Hin in Hin0. injection Hin0 as <-.
  fold (pipe_call c self h) in Hh, Hs'.
  assert (data_schema (self_after (pipe_call c self h)) = data_schema self) as Hds.
  { unfold pipe_call. by rewrite pipe_self_after. }
  destruct (IH (self_after (pipe_call c self h)) (heap_after (pipe_call c self h)))
    as [Hframe Hds']; [by apply pipe_well_formed | by rewrite Hds | done |].
  split; [|congruence].
  intros l Hl [d Hd].
  assert (heap_after (pipe_call c self h) !! l = h !! l) as Hstep.
  { rewrite Hh, lookup_insert_ne by done. rewrite lookup_insert_ne; [done|].
    intros <-. by rewrite fresh_lookup in Hd. }
  rewrite Hframe; [done|done|]. rewrite Hstep. eauto.
Qed.

(** X13.  Two pipelines built one after the other share nothing: whatever
    calls are made on the second, the template of the first, its [inputs]
    included, stays as it was when the first was built, and the first stays
    well-formed. *)
Theorem X13_pipelines_do_not_interfere (env1 env2 : environ) (h0 h1 h2 : heap)
    p1 p2 cs :
  __init__ env1 h0 = (Ok p1, h1) →
  __init__ env2 h1 = (Ok p2, h2) →
  let h' := (after_calls cs p2 h2).2 in
  template p1 h' = template p1 h1
  ∧ well_formed p1 h' = true
  ∧ data_schema p1 ≠ data_schema p2.
Proof.
  intros Hinit1 Hinit2 h'.
  pose proof (init_well_formed _ _ _ _ Hinit1) as Hwf1.
  pose proof (init_well_formed _ _ _ _ Hinit2) as Hwf2.
  apply well_formed_inv in Hwf1
    as (schema1 & li1 & inputs1 & Hs1 & Hin1 & Hne1 & Hsh1 & Hi1 & Hfl1).
  destruct (init_fresh_parts env2 h1 h2 p2 Hinit2)
    as (schema2 & li2 & Hs2 & Hin2 & Hds2 & Hli2 & Hkeep).
  destruct (calls_frame cs p2 h2 schema2 li2 Hwf2 Hs2 Hin2) as [Hframe _].
  fold h' in Hframe.
  assert (∀ l d, h1 !! l = Some d → h' !! l = Some d) as Hsame.
  { intros l d Hd. rewrite Hframe.
    - rewrite Hkeep by eauto. done.
    - intros ->. congruence.
    - rewrite Hkeep by eauto. eauto. }
  split_and!.
  - rewrite (template_eq p1 h' schema1 li1 inputs1) by auto.
    by rewrite (template_eq p1 h1 schema1 li1 inputs1).
  - apply (well_formed_intro p1 h' schema1 li1 inputs1); auto.
  - intros Heq. rewrite Heq in Hs1. congruence.
Qed.

(** ** Configuration from the environment *)

Lemma new_Valves_eq (env : environ) :
  new_Valves (valves_kwargs env)
  = verify_ssl ← match env !! "VERIFY_SSL" with
                 | None => Ok (Some false)
                 | Some s => Some <$> bool_of_str s
                 end;
    Ok {| APP_NAME := default "My Dify Pipeline Local" (env !! "APP_NAME");
          HOST_URL := default "http://host.docker.internal" (env !! "HOST_URL");
          DIFY_API_KEY := default "YOUR_DIFY_API_KEY" (env !! "DIFY_API_KEY");
          USER_INPUT_KEY := default "input" (env !! "USER_INPUT_KEY");
          USER_INPUTS := match env !! "USER_INPUTS" with
                         | Some (String c s) => String c s
                         | Some EmptyString | None => "{}"
                         end;
          DIFY_TYPE := default "workflow" (env !! "DIFY_TYPE");
          RESPONSE_MODE := Some (default "streaming" (env !! "RESPONSE_MODE"));
          VERIFY_SSL := verify_ssl |}.
Proof.
  unfold new_Valves, valves_kwargs, required_str, optional_str, optional_bool.
  rewrite !getenv_AStr. unfold getenv. hide_env env.
  repeat match goal with
         | o : option string |- context [match ?o' with _ => _ end] =>
             is_var o'; destruct o' as [[|]|]
         end; try reflexivity;
    simpl; by destruct (bool_of_str _).
Qed.

(** X14.  In a pipeline that [__init__] builds, every setting is the value
    of its environment variable when the variable is set and its default
    otherwise; an empty [USER_INPUTS] counts as unset, so the setting is
    never empty; a [VERIFY_SSL] that is set is read as a boolean word; and
    the display name is [APP_NAME]. *)
Theorem X14_settings_from_environment (env : environ) (h h' : heap) self :
  __init__ env h = (Ok self, h') →
  let v := valves self in
  APP_NAME v = default "My Dify Pipeline Local" (env !! "APP_NAME")
  ∧ HOST_URL v = default "http://host.docker.internal" (env !! "HOST_URL")
  ∧ DIFY_API_KEY v = default "YOUR_DIFY_API_KEY" (env !! "DIFY_API_KEY")
  ∧ USER_INPUT_KEY v = default "input" (env !! "USER_INPUT_KEY")
  ∧ DIFY_TYPE v = default "workflow" (env !! "DIFY_TYPE")
  ∧ RESPONSE_MODE v = Some (default "streaming" (env !! "RESPONSE_MODE"))
  ∧ (∀ c s, env !! "USER_INPUTS" = Some (String c s) → USER_INPUTS v = String c s)
  ∧ (env !! "USER_INPUTS" = None ∨ env !! "USER_INPUTS" = Some EmptyString →
     USER_INPUTS v = "{}")
  ∧ USER_INPUTS v ≠ EmptyString
  ∧ (∀ s, env !! "VERIFY_SSL" = Some s →
          ∃ b, bool_of_str s = Ok b ∧ VERIFY_SSL v = Some b)
  ∧ name self = APP_NAME v ∧ headers self = None ∧ debug self = false.
Proof.
  intros Hinit%init_inv v. rewrite new_Valves_eq in Hinit.
  destruct (match env !! "VERIFY_SSL" with
            | None => Ok (Some false)
            | Some s => Some <$> bool_of_str s
            end) as [verify_ssl|e] eqn:Hverify; [|by destruct Hinit].
  simpl in Hinit. destruct Hinit as ([l|e] & _ & Hself); [|done].
  injection Hself as Hself. subst v. rewrite Hself. simpl.
  split_and!; try done.
  - by intros c s ->.
  - by intros [-> | ->].
  - by destruct (env !! "USER_INPUTS") as [[|]|].
  - intros s Hs. rewrite Hs in Hverify.
    destruct (bool_of_str s) as [b|]; [|done]. injection Hverify as <-. eauto.
Qed.

(** X15.  When [__init__] fails it has changed nothing in the store, and it
    fails for one of two reasons only: [VERIFY_SSL] is set to something that
    is not a boolean word, or [DIFY_TYPE] is set to something that is not
    one of the four modes. *)
Theorem X15_init_failure (env : environ) (h h' : heap) e :
  __init__ env h = (Raise e, h') →
  h' = h
  ∧ ((e = ValidationError
      ∧ ∃ s, env !! "VERIFY_SSL" = Some s ∧ bool_of_str s = Raise ValidationError)
     ∨ (e = ValueError
              "Invalid dify_type. Must be 'completion', 'workflow', 'agent', or 'chat'"
        ∧ ∃ m, env !! "DIFY_TYPE" = Some m
               ∧ ¬ In m ["workflow"; "agent"; "chat"; "completion"])).
Proof.
  intros Hinit%init_inv. rewrite new_Valves_eq in Hinit.
  destruct (env !! "VERIFY_SSL") as [s|] eqn:Hs.
  - destruct (bool_of_str s) as [b|e'] eqn:Hb; simpl in Hinit.
    + destruct Hinit as (r0 & Hschema & Hr).
      apply get_schema_inv in Hschema as [[_ (rest & -> & _)]|(Hmode & -> & ->)];
        [done|].
      injection Hr as ->. split; [done|]. right. split; [done|].
      simpl in Hmode. destruct (env !! "DIFY_TYPE") as [m|]; [eauto|].
      exfalso. apply Hmode. simpl. auto.
    + destruct Hinit as [[= ->] ->]. split; [done|]. left.
      assert (e' = ValidationError) as ->.
      { unfold bool_of_str in Hb. by repeat case_match; simplify_eq. }
      eauto.
  - simpl in Hinit. destruct Hinit as (r0 & Hschema & Hr).
    apply get_schema_inv in Hschema as [[_ (rest & -> & _)]|(Hmode & -> & ->)];
      [done|].
    injection Hr as ->. split; [done|]. right. split; [done|].
    simpl in Hmode. destruct (env !! "DIFY_TYPE") as [m|]; [eauto|].
    exfalso. apply Hmode. simpl. auto.
Qed.

(** ** Failures before the request *)


(** X17.  [set_data_schema] installs whatever dictionary it is given.  With
    one that has no ["inputs"] item, a call in mode workflow or completion
    raises [KeyError] for ["inputs"] to its caller, before the caller's
    identity is read; nothing is yielded and no request is sent. *)
Theorem X17_schema_without_inputs post self l d msg model msgs body (h : heap) :
  h !! l = Some d →
  dict_get d "inputs" = None →
  DIFY_TYPE (valves self) = "workflow" ∨ DIFY_TYPE (valves self) = "completion" →
  let run := pipe post (set_data_schema self l) msg model msgs body h in
  sent run = None ∧ output run = throw (KeyError "inputs").
Proof.
  intros Hl Hd Hmode run.
  assert (prepare (set_headers (set_data_schema self l)) msg body h
          = (Raise (KeyError "inputs"), <[fresh (dom h) := d]> h)) as Hp.
  { unfold prepare. simpl data_schema. simpl valves.
    erewrite bind_Ok by by apply copy_eq.
    erewrite bind_Raise; [done|].
    unfold place_message.
    assert (Py.getitem (VRef (fresh (dom h))) "inputs" (<[fresh (dom h) := d]> h)
            = (Raise (KeyError "inputs"), <[fresh (dom h) := d]> h)) as Hget.
    { unfold Py.getitem. erewrite bind_Ok.
      - by rewrite Hd.
      - unfold Py.load. by rewrite lookup_insert_eq. }
    destruct Hmode as [-> | ->]; simpl; by erewrite bind_Raise. }
  unfold run, pipe. by rewrite Hp.
Qed.

(** ** The request *)

Lemma prepare_request self msg body (h h' : heap) req :
  prepare self msg body h = (Ok req, h') →
  create_api_url self = Ok (url req)
  ∧ req_headers req = default [] (headers self)
  ∧ verify req = VERIFY_SSL (valves self)
  ∧ stream req = is_str (RESPONSE_MODE (valves self)) "streaming".
Proof.
  unfold prepare. intros Hp.
  do 5 (apply bind_Ok_inv in Hp as (? & ? & _ & Hp)).
  apply bind_Ok_inv in Hp as (target & h1 & Hurl & Hp).
  apply bind_Ok_inv in Hp as (? & ? & _ & Hp).
  injection Hp as <-. simpl. unfold Py.lift in Hurl. by injection Hurl as ->.
Qed.

(** X18.  Every request that [pipe] sends goes to the endpoint of the mode,
    carries the bearer token of the configured key and the JSON content
    type, has the configured TLS flag, and asks for a streamed response
    exactly when the response is then decoded as a stream. *)
Theorem X18_request_envelope post self msg model msgs body (h : heap) req :
  let run := pipe post self msg model msgs body h in
  sent run = Some req →
  create_api_url self = Ok (url req)
  ∧ req_headers req
    = [("Authorization", "Bearer " +:+ DIFY_API_KEY (valves self));
       ("Content-Type", "application/json")]
  ∧ verify req = VERIFY_SSL (valves self)
  ∧ (stream req = true ↔ RESPONSE_MODE (valves self) = Some "streaming")
  ∧ ∀ r, post req = Answered r →
         output run
         = except_RequestException
             (yield_then (status_fragment r)
                (if stream req then decode_stream (lines r) (ending r)
                 else decode_blocking (text r))).
Proof.
  intros run Hsent.
  pose proof Hsent as [h' Hp]%sent_prepare.
  apply prepare_request in Hp as (Hurl & Hh & Hv & Hs).
  split_and!; try done.
  - rewrite Hs. simpl. destruct (RESPONSE_MODE (valves self)) as [m|]; simpl.
    + rewrite String.eqb_eq. split; congruence.
    + split; done.
  - intros r Hpost. unfold run.
    rewrite (output_answered _ _ _ _ _ _ _ _ _ Hsent Hpost).
    by rewrite decode_response_status, Hs.
Qed.

Lemma fmap_dict_set {V W} (f : V → W) (d : pydict V) k x :
  prod_map id f <$> dict_set d k x = dict_set (prod_map id f <$> d) k (f x).
Proof.
  induction d as [|[k' x'] d IH]; [done|]. cbn.
  destruct (k' =? k)%string; [done|]. cbn. f_equal. exact IH.
Qed.

Lemma fmap_dict_update {V W} (f : V → W) (d o : pydict V) :
  prod_map id f <$> dict_update d o
  = dict_update (prod_map id f <$> d) (prod_map id f <$> o).
Proof.
  revert d. induction o as [|[k x] o IH]; intros d; [done|].
  rewrite fmap_cons. cbn [prod_map fst snd id].
  rewrite !dict_update_cons, IH. by rewrite fmap_dict_set.
Qed.

Lemma unwrap_VJson (o : list (string * json)) :
  prod_map id unwrap <$> (prod_map id VJson <$> o) = o.
Proof. induction o as [|[k x] o IH]; [done|]. cbn. f_equal. exact IH. Qed.

Lemma dict_set_new {V} (d : pydict V) k x :
  k ∉ d.*1 → dict_set d k x = (d ++ [(k, x)])%list.
Proof.
  induction d as [|[k' x'] d IH]; [done|]. cbn. intros Hk.
  apply not_elem_of_cons in Hk as [Hne Hk].
  rewrite (proj2 (String.eqb_neq k' k)) by done. f_equal. by apply IH.
Qed.

Lemma dict_update_new {V} (d o : pydict V) :
  NoDup (d.*1 ++ o.*1)%list → dict_update d o = (d ++ o)%list.
Proof.
  revert d. induction o as [|[k x] o IH]; intros d Hnd.
  { by rewrite app_nil_r. }
  rewrite dict_update_cons. cbn in Hnd.
  rewrite dict_set_new.
  - rewrite IH; [by rewrite <-app_assoc|].
    rewrite fmap_app. cbn. by rewrite <-app_assoc.
  - apply NoDup_app in Hnd as (_ & Hd & _). intros Hk. apply (Hd k Hk).
    apply elem_of_cons. by left.
Qed.

(** X19.  The body of the first request of a pipeline that [__init__] built,
    when the caller's e-mail is present and the extra inputs decode to an
    object: exactly the fields of the mode's schema, in the schema's order,
    with [user] the e-mail, [response_mode] the configured one, the message
    at the place of the mode, and [inputs] holding the extra inputs merged
    over the message. *)
Theorem X19_first_request_body (env : environ) (h0 h : heap) self
    post msg model msgs body email o :
  __init__ env h0 = (Ok self, h) →
  caller_email body = Ok email →
  Json.loads (USER_INPUTS (valves self)) = Ok (JObject o) →
  let v := valves self in
  ∃ req,
    sent (pipe post self msg model msgs body h) = Some req
    ∧ (DIFY_TYPE v = "workflow" →
       body_json req
       = JObject [("inputs", JObject (dict_update [(USER_INPUT_KEY v, JStr msg)] o));
                  ("response_mode", of_optional (RESPONSE_MODE v));
                  ("user", email)])
    ∧ (DIFY_TYPE v = "agent" ∨ DIFY_TYPE v = "chat" →
       body_json req
       = JObject [("inputs", JObject o);
                  ("query", JStr msg);
                  ("response_mode", of_optional (RESPONSE_MODE v));
                  ("user", email)])
    ∧ (DIFY_TYPE v = "completion" →
       body_json req
       = JObject [("inputs", JObject (dict_update [("query", JStr msg)] o));
                  ("response_mode", of_optional (RESPONSE_MODE v));
                  ("user", email)]).
Proof.
  intros Hinit He Ho v.
  pose proof (loads_object_nodup _ _ Ho) as Hnd.
  apply extra_inputs_object in Ho.
  pose proof Hinit as Hinv%init_inv.
  destruct (new_Valves (valves_kwargs env)) as [v0|e]; [|by destruct Hinv].
  destruct Hinv as ([l|e] & Hschema & Hself); [|done].
  injection Hself as ->. simpl in v, Ho. subst v.
  pose proof (fresh_lookup h0) as Hli.
  set (li := fresh (dom h0)) in *.
  pose proof (fresh_lookup (<[li := []]> h0)) as Hld.
  set (ld := fresh (dom (<[li := []]> h0))) in *.
  assert (li ≠ ld) as Hne.
  { intros Heq. rewrite <-Heq in Hld. by rewrite lookup_insert_eq in Hld. }
  assert (∀ rest,
            forallb (λ kv, is_json kv.2) rest = true →
            l = ld →
            h = <[ld := ("inputs", VRef li) :: rest]> (<[li := []]> h0) →
            ∀ target,
              create_api_url {| valves := v0; name := APP_NAME v0; headers := None;
                                data_schema := l; debug := false |} = Ok target →
              ∃ req,
                sent (pipe post {| valves := v0; name := APP_NAME v0;
                                   headers := None; data_schema := l;
                                   debug := false |} msg model msgs body h)
                = Some req
                ∧ body_json req
                  = JObject (render
                      (dict_update (placed_inputs v0 msg [])
                         (prod_map id VJson <$> o))
                      (dict_set (placed_schema v0 msg (("inputs", VRef li) :: rest))
                         "user" (VJson email)))) as Hsend.
  { intros rest Hrest -> -> target Hurl.
    eexists. unfold pipe.
    rewrite (prepare_eq _ msg body _ (("inputs", VRef li) :: rest) li []);
      try done; cycle 1.
    - apply lookup_insert_eq.
    - simpl. rewrite Nat.eqb_refl. simpl.
      clear -Hrest. induction rest as [|[k x] rest IH]; [done|]. simpl in *.
      apply andb_prop in Hrest as [-> Hrest]. simpl. by apply IH.
    - simpl. rewrite lookup_insert_ne by done. apply lookup_insert_eq.
    - cbv zeta. rewrite He. simpl valves. rewrite Ho.
      change (create_api_url (set_headers ?s)) with (create_api_url s).
      rewrite Hurl. done. }
  unfold get_schema in Hschema. simpl in Hschema.
  unfold create_api_url in Hsend. simpl in Hsend.
  destruct (String.eqb_spec (DIFY_TYPE v0) "workflow") as [Hw|Hw].
  { injection Hschema as <- <-.
    edestruct Hsend as (req & Hreq & Hbody); [|done|done|done|]; [done|].
    exists req. split; [done|]. rewrite Hbody.
    unfold render, placed_inputs, placed_schema. rewrite Hw. simpl.
    rewrite fmap_dict_update, unwrap_VJson.
    split_and!; [done | intros [?|?]; congruence | congruence]. }
  destruct (String.eqb_spec (DIFY_TYPE v0) "agent") as [Ha|Ha].
  { injection Hschema as <- <-.
    edestruct Hsend as (req & Hreq & Hbody); [|done|done|done|]; [done|].
    exists req. split; [done|]. rewrite Hbody.
    unfold render, placed_inputs, placed_schema. rewrite Ha. simpl.
    rewrite fmap_dict_update, unwrap_VJson. simpl.
    rewrite (dict_update_new [] o) by done.
    split_and!; [congruence | done | congruence]. }
  destruct (String.eqb_spec (DIFY_TYPE v0) "chat") as [Hc|Hc].
  { injection Hschema as <- <-.
    edestruct Hsend as (req & Hreq & Hbody); [|done|done|done|]; [done|].
    exists req. split; [done|]. rewrite Hbody.
    unfold render, placed_inputs, placed_schema. rewrite Hc. simpl.
    rewrite fmap_dict_update, unwrap_VJson. simpl.
    rewrite (dict_update_new [] o) by done.
    split_and!; [congruence | done | congruence]. }
  destruct (String.eqb_spec (DIFY_TYPE v0) "completion") as [Hp|Hp].
  { injection Hschema as <- <-.
    edestruct Hsend as (req & Hreq & Hbody); [|done|done|done|]; [done|].
    exists req. split; [done|]. rewrite Hbody.
    unfold render, placed_inputs, placed_schema. rewrite Hp. simpl.
    rewrite fmap_dict_update, unwrap_VJson.
    split_and!; [congruence | intros [?|?]; congruence | done]. }
  done.
Qed.

(** ** The properties above at concrete calls *)

Lemma X1_anonymous_call :
  let run := pipe (unreachable "down") default_pipeline "hello" "model" []
               anonymous default_heap in
  sent run = None
  ∧ fragments (output run) = []
  ∧ ∃ e, raised (output run) = Some e ∧ other_than_request_exception e.
Proof.
  split; [vm_compute; reflexivity|].
  apply (X1_nothing_sent_nothing_yielded (unreachable "down") default_pipeline
           "hello" "model" [] anonymous default_heap).
  vm_compute; reflexivity.
Defined.



Lemma X4_broken_stream_example :
  (length (fragments (output (pipe (answering broken_response) default_pipeline
                                "hello" "model" [] caller default_heap)))
   ≤ length (status_fragment broken_response) + length (lines broken_response)
     + match ending broken_response with Exhausted => 0 | Broken _ => 1 end)%nat.
Proof.
  apply (X4_streaming_fragment_bound (answering broken_response) default_pipeline
           "hello" "model" [] caller default_heap hello_request broken_response).
  - vm_compute; reflexivity.
  - reflexivity.
  - reflexivity.
Defined.

Lemma X5_two_lines_example :
  decode_stream ([chunk_A] ++ [finished_DONE]) Exhausted
  = yield_then (fragments (decode_stream [chunk_A] Exhausted))
      (decode_stream [finished_DONE] Exhausted).
Proof.
  destruct (X5_stream_composes [chunk_A] [finished_DONE] Exhausted) as [Hok _].
  apply Hok. vm_compute; reflexivity.
Defined.

Lemma X6_marker_without_space :
  decode_line (PyStr.jq "data:{'event':'text_chunk','data':{'text':'B'}}") = Ok []
  ∧ decode_stream
      ([chunk_A] ++ PyStr.jq "data:{'event':'text_chunk','data':{'text':'B'}}"
                    :: [finished_DONE]) Exhausted
    = decode_stream ([chunk_A] ++ [finished_DONE]) Exhausted.
Proof.
  apply (X6_other_lines_ignored [chunk_A]
           (PyStr.jq "data:{'event':'text_chunk','data':{'text':'B'}}")
           [finished_DONE] Exhausted); vm_compute; reflexivity.
Defined.

Lemma X7_chunk_example :
  decode_line ("data: " +:+ PyStr.jq "{'event':'text_chunk','data':{'text':'A'}}")
  = Ok [JStr "A"].
Proof.
  destruct (X7_data_line_payload
              (PyStr.jq "{'event':'text_chunk','data':{'text':'A'}}"))
    as (_ & _ & Hevent).
  - vm_compute; reflexivity.
  - vm_compute; reflexivity.
  - apply (Hevent (JObject [("event", JStr "text_chunk");
                            ("data", JObject [("text", JStr "A")])]));
      vm_compute; reflexivity.
Defined.

Lemma X8_garbled_line_example :
  output (pipe (answering garbled_response) default_pipeline "hello" "model" []
            caller default_heap)
  = {| fragments := (status_fragment garbled_response
                     ++ fragments (decode_stream [chunk_A] Exhausted))%list;
       raised := Some UnicodeDecodeError |}.
Proof.
  apply (X8_undecodable_line_aborts (answering garbled_response) default_pipeline
           "hello" "model" [] caller default_heap hello_request garbled_response
           [chunk_A] "255"%char EmptyString [finished_DONE]).
  - vm_compute; reflexivity.
  - reflexivity.
  - reflexivity.
  - reflexivity.
  - vm_compute; reflexivity.
  - vm_compute; reflexivity.
Defined.

Lemma X9_hello_call_frame :
  let run := pipe (unreachable "down") default_pipeline "hello" "model" []
               caller default_heap in
  ∃ schema li,
    default_heap !! data_schema default_pipeline = Some schema
    ∧ dict_get schema "inputs" = Some (VRef li)
    ∧ heap_after run !! data_schema default_pipeline = Some schema
    ∧ (∀ l, l ≠ li → is_Some (default_heap !! l) →
            heap_after run !! l = default_heap !! l)
    ∧ dom (heap_after run) = dom default_heap ∪ {[fresh (dom default_heap)]}
    ∧ valves (self_after run) = valves default_pipeline
    ∧ data_schema (self_after run) = data_schema default_pipeline.
Proof.
  apply (X9_pipe_frame (unreachable "down") default_pipeline "hello" "model" []
           caller default_heap).
  vm_compute; reflexivity.
Defined.

Lemma X10_default_pipeline_example :
  __init__ ∅ ∅ = (Ok default_pipeline, default_heap)
  ∧ well_formed default_pipeline default_heap = true
  ∧ well_formed (after_calls [hello_call; hello_call] default_pipeline default_heap).1
      (after_calls [hello_call; hello_call] default_pipeline default_heap).2 = true.
Proof.
  split; [vm_compute; reflexivity|].
  apply (X10_well_formed_forever ∅ ∅ default_heap default_pipeline
           [hello_call; hello_call]).
  vm_compute; reflexivity.
Defined.

Lemma X11_second_call_example :
  let self' := (after_calls [hello_call] default_pipeline default_heap).1 in
  let h' := (after_calls [hello_call] default_pipeline default_heap).2 in
  sent (pipe (answering garbled_response) self' "again" "model" [] caller h')
  = sent (pipe (answering garbled_response) default_pipeline "again" "model" []
            caller default_heap)
  ∧ output (pipe (answering garbled_response) self' "again" "model" [] caller h')
    = output (pipe (answering garbled_response) default_pipeline "again" "model"
                [] caller default_heap).
Proof.
  apply (X11_earlier_calls_do_not_matter [hello_call] (answering garbled_response)
           default_pipeline "again" "model" [] caller default_heap).
  vm_compute; reflexivity.
Defined.

Lemma X12_default_template_example :
  ∃ schema li,
    default_heap !! data_schema default_pipeline = Some schema
    ∧ dict_get schema "inputs" = Some (VRef li)
    ∧ default_heap !! li = Some []
    ∧ (∅ : heap) !! data_schema default_pipeline = None
    ∧ (∅ : heap) !! li = None ∧ li ≠ data_schema default_pipeline
    ∧ (∀ l, is_Some ((∅ : heap) !! l) → default_heap !! l = (∅ : heap) !! l)
    ∧ In (DIFY_TYPE (valves default_pipeline))
         ["workflow"; "agent"; "chat"; "completion"]
    ∧ ∃ target, create_api_url default_pipeline = Ok target.
Proof.
  apply (X12_init_builds_fresh_template ∅ ∅ default_heap default_pipeline).
  vm_compute; reflexivity.
Defined.

Lemma X13_second_pipeline_example :
  let h' := (after_calls [hello_call] second_pipeline second_heap).2 in
  template default_pipeline h' = template default_pipeline default_heap
  ∧ well_formed default_pipeline h' = true
  ∧ data_schema default_pipeline ≠ data_schema second_pipeline.
Proof.
  apply (X13_pipelines_do_not_interfere ∅ ∅ ∅ default_heap second_heap
           default_pipeline second_pipeline [hello_call]);
    vm_compute; reflexivity.
Defined.

Lemma X14_blocking_environment :
  __init__ {["RESPONSE_MODE" := "blocking"]} ∅ = (Ok blocking_pipeline, blocking_heap)
  ∧ RESPONSE_MODE (valves blocking_pipeline)
    = Some (default "streaming"
              (({["RESPONSE_MODE" := "blocking"]} : environ) !! "RESPONSE_MODE"))
  ∧ USER_INPUTS (valves blocking_pipeline) ≠ EmptyString.
Proof.
  assert (__init__ {["RESPONSE_MODE" := "blocking"]} ∅
          = (Ok blocking_pipeline, blocking_heap)) as Hinit
    by (vm_compute; reflexivity).
  split; [exact Hinit|].
  destruct (X14_settings_from_environment _ _ _ _ Hinit)
    as (_ & _ & _ & _ & _ & Hmode & _ & _ & Hinputs & _).
  split; [exact Hmode | exact Hinputs].
Defined.

Lemma X15_bogus_mode_environment :
  __init__ {["DIFY_TYPE" := "bogus"]} ∅
  = (Raise (ValueError
       "Invalid dify_type. Must be 'completion', 'workflow', 'agent', or 'chat'"),
     ∅)
  ∧ ∃ m, ({["DIFY_TYPE" := "bogus"]} : environ) !! "DIFY_TYPE" = Some m
         ∧ ¬ In m ["workflow"; "agent"; "chat"; "completion"].
Proof.
  assert (__init__ {["DIFY_TYPE" := "bogus"]} ∅
          = (Raise (ValueError
               "Invalid dify_type. Must be 'completion', 'workflow', 'agent', or 'chat'"),
             ∅)) as Hinit
    by (vm_compute; reflexivity).
  split; [exact Hinit|].
  destruct (X15_init_failure _ _ _ _ Hinit) as [_ [[He _] | [_ Hm]]].
  - discriminate He.
  - exact Hm.
Defined.


Lemma X17_empty_schema_example :
  let run := pipe (unreachable "down") (set_data_schema default_pipeline 0%nat)
               "hello" "model" [] caller default_heap in
  sent run = None ∧ output run = throw (KeyError "inputs").
Proof.
  apply (X17_schema_without_inputs (unreachable "down") default_pipeline 0%nat []
           "hello" "model" [] caller default_heap).
  - vm_compute; reflexivity.
  - reflexivity.
  - left. reflexivity.
Defined.

Lemma X18_hello_envelope :
  create_api_url default_pipeline = Ok (url hello_request)
  ∧ req_headers hello_request
    = [("Authorization", "Bearer " +:+ DIFY_API_KEY (valves default_pipeline));
       ("Content-Type", "application/json")]
  ∧ verify hello_request = VERIFY_SSL (valves default_pipeline).
Proof.
  destruct (X18_request_envelope (unreachable "down") default_pipeline "hello"
              "model" [] caller default_heap hello_request)
    as (Hurl & Hheaders & Hverify & _); [vm_compute; reflexivity|].
  split; [exact Hurl|]. split; [exact Hheaders | exact Hverify].
Defined.

Lemma X19_first_hello_body :
  ∃ req,
    sent (pipe (unreachable "down") default_pipeline "hello" "model" [] caller
            default_heap) = Some req
    ∧ body_json req
      = JObject [("inputs", JObject [("input", JStr "hello")]);
                 ("response_mode", JStr "streaming");
                 ("user", JStr "user@example.com")].
Proof.
  destruct (X19_first_request_body ∅ ∅ default_heap default_pipeline
              (unreachable "down") "hello" "model" [] caller
              (JStr "user@example.com") [])
    as (req & Hsent & Hworkflow & _).
  - vm_compute; reflexivity.
  - reflexivity.
  - vm_compute; reflexivity.
  - exists req. split; [exact Hsent | exact (Hworkflow eq_refl)].
Defined.
